(** * Exam attempt engine: scoring, status machine, timer and resume

    A shallow embedding of the exam core of the CAT exam simulator:
    - [calculateScore] of [src/services/examLogic.ts];
    - the [useTimer] hook that [App.tsx] imports from [hooks/useTimer]
      ([endTimer], the interval callback, the effect, [start], [pause],
      [setTime]), whose text follows the type declarations in
      [src/types.ts];
    - [startExam], [handleFileUpload], [updateStatus], [handleAnswerChange],
      [handleMarkForReview] and [clearResponse] of [src/App.tsx].

    Conventions of the embedding.
    - A JavaScript string is a [string]: a list of code units, here the code
      units 0..255 (the Latin-1 range), on which [trim] and [toLowerCase] are
      written out as ECMAScript defines them.
    - A JavaScript number that holds a qid, a counter or a mark is a [Z].
    - An object used as a dictionary ([Answers], [Statuses], [localStorage])
      is a [gmap]; a missing key reads as [None] (JavaScript [undefined] or
      [null]).
    - React state is passed explicitly: every handler is a function from the
      state before to the state after. *)

From Stdlib Require Import ZArith List Ascii String Bool.
From stdpp Require Import base option gmap strings list fin_maps.

Local Open Scope Z_scope.

(** ** JavaScript strings *)

Module JSString.

(** ECMAScript WhiteSpace and LineTerminator code units below 256:
    TAB, LF, VT, FF, CR, SP and NBSP. *)
Definition isWhiteSpace (c : ascii) : bool :=
  let n := N_of_ascii c in
  ((9 <=? n) && (n <=? 13) || (n =? 32) || (n =? 160))%N.

Fixpoint trimStart (s : string) : string :=
  match s with
  | EmptyString => EmptyString
  | String c s' => if isWhiteSpace c then trimStart s' else s
  end.

Fixpoint trimEnd (s : string) : string :=
  match s with
  | EmptyString => EmptyString
  | String c s' =>
      match trimEnd s' with
      | EmptyString => if isWhiteSpace c then EmptyString else String c EmptyString
      | t => String c t
      end
  end.

(** [String.prototype.trim]. *)
Definition trim (s : string) : string := trimEnd (trimStart s).

(** Lower-case mapping of one code unit: A..Z and the Latin-1 capitals
    U+00C0..U+00DE (without the multiplication sign U+00D7) move up by 32. *)
Definition lowerChar (c : ascii) : ascii :=
  let n := N_of_ascii c in
  if ((65 <=? n) && (n <=? 90)
      || (192 <=? n) && (n <=? 222) && negb (n =? 215))%N
  then ascii_of_N (n + 32)
  else c.

(** [String.prototype.toLowerCase]. *)
Fixpoint toLowerCase (s : string) : string :=
  match s with
  | EmptyString => EmptyString
  | String c s' => String (lowerChar c) (toLowerCase s')
  end.

(** Truthiness of a string: every string but the empty one. *)
Definition truthy (s : string) : bool :=
  match s with
  | EmptyString => false
  | String _ _ => true
  end.

(** A string made of white space only. *)
Fixpoint allWhiteSpace (s : string) : bool :=
  match s with
  | EmptyString => true
  | String c s' => isWhiteSpace c && allWhiteSpace s'
  end.

End JSString.

Import JSString.

(** ** The data model of [src/types.ts] *)

Inductive QuestionType := MCQ | TITA.

Inductive QuestionStatus :=
  | NotVisited
  | NotAnswered
  | Answered
  | MarkedForReview
  | AnsweredAndMarked.

#[global] Instance QuestionType_eq_dec : EqDecision QuestionType.
Proof. solve_decision. Defined.

#[global] Instance QuestionStatus_eq_dec : EqDecision QuestionStatus.
Proof. solve_decision. Defined.

(** The fields of [Question] the engine reads. [answerKey] is
    [string | null]. *)
Record Question := mkQuestion {
  qid : Z;
  qtype : QuestionType;
  answerKey : option string;
  passageId : option Z;
  section : option string
}.

Record Marks := mkMarks { correct : Z; wrong : Z }.

Record MarkingScheme := mkMarking { mcq : Marks; tita : Marks }.

Record Meta := mkMeta {
  title : string;
  totalQuestions : Z;
  totalPassages : Z;
  marking : MarkingScheme
}.

Record QuestionSet := mkQuestionSet {
  meta : Meta;
  questions : list Question
}.

Record Score := mkScore {
  raw : Z;
  mcqCorrect : Z;
  mcqWrong : Z;
  titaCorrect : Z;
  totalAnswered : Z
}.

Record TimerInfo := mkTimerInfo {
  startedAt : Z;
  durationSec : Z;
  remainingSec : Z
}.

Inductive AttemptStatus := inProgress | submitted.

Record Attempt := mkAttempt {
  uploadId : string;
  userId : string;
  timer : TimerInfo;
  answers : gmap Z string;
  statuses : gmap Z QuestionStatus;
  status : AttemptStatus;
  score : option Score
}.

(** ** [src/services/examLogic.ts] *)

Module ExamLogic.

(** The four counters the loop of [calculateScore] updates. *)
Record Counters := mkCounters {
  cMcqCorrect : Z;
  cMcqWrong : Z;
  cTitaCorrect : Z;
  cTotalAnswered : Z
}.

Definition noCounts : Counters := mkCounters 0 0 0 0.

(** The test [userAnswer && userAnswer.trim() !== ''] on the value read
    from the answers object. *)
Definition isAnswered (userAnswer : option string) : bool :=
  match userAnswer with
  | None => false
  | Some a => truthy a && negb (String.eqb (trim a) EmptyString)
  end.

(** [userAnswer.trim().toLowerCase() === q.answerKey?.toLowerCase()]: with a
    null key the right-hand side is [undefined], which no string equals. *)
Definition isCorrect (userAnswer : string) (key : option string) : bool :=
  match key with
  | None => false
  | Some k => String.eqb (toLowerCase (trim userAnswer)) (toLowerCase k)
  end.

(** One iteration of the loop over [questionSet.questions]. *)
Definition loopBody (ans : gmap Z string) (c : Counters) (q : Question) : Counters :=
  let userAnswer := ans !! qid q in
  if isAnswered userAnswer then
    let a := default EmptyString userAnswer in
    let total := cTotalAnswered c + 1 in
    match qtype q with
    | MCQ =>
        if isCorrect a (answerKey q)
        then mkCounters (cMcqCorrect c + 1) (cMcqWrong c) (cTitaCorrect c) total
        else mkCounters (cMcqCorrect c) (cMcqWrong c + 1) (cTitaCorrect c) total
    | TITA =>
        if isCorrect a (answerKey q)
        then mkCounters (cMcqCorrect c) (cMcqWrong c) (cTitaCorrect c + 1) total
        else mkCounters (cMcqCorrect c) (cMcqWrong c) (cTitaCorrect c) total
    end
  else c.

Definition calculateScore (attempt : Attempt) (questionSet : QuestionSet) : Score :=
  let m := marking (meta questionSet) in
  let c := fold_left (loopBody (answers attempt)) (questions questionSet) noCounts in
  {| raw := cMcqCorrect c * correct (mcq m)
            + cMcqWrong c * wrong (mcq m)
            + cTitaCorrect c * correct (tita m);
     mcqCorrect := cMcqCorrect c;
     mcqWrong := cMcqWrong c;
     titaCorrect := cTitaCorrect c;
     totalAnswered := cTotalAnswered c |}.

End ExamLogic.

Import ExamLogic.

(** ** The [useTimer] hook *)

Module Timer.

(** [timerRef.current]: null, the id of a live interval, or the id of an
    interval that [clearInterval] has already stopped (the cleanup of the
    effect clears the interval and leaves the id in the ref). *)
Inductive IntervalRef := RefNull | RefLive | RefCleared.

(** The state of one [useTimer] instance, with the number of calls of the
    [onEnd] callback made so far. *)
Record TimerState := mkTimer {
  remainingTime : Z;
  isRunning : bool;
  timerRef : IntervalRef;
  onEndCalls : nat
}.

(** The state at mount: [useState(durationSeconds)], [useState(false)],
    [useRef(null)]. *)
Definition useTimer (durationSeconds : Z) : TimerState :=
  mkTimer durationSeconds false RefNull 0.

Definition endTimer (st : TimerState) : TimerState :=
  {| remainingTime := remainingTime st;
     isRunning := false;
     timerRef := RefNull;
     onEndCalls := S (onEndCalls st) |}.

(** The function returned by the effect: [clearInterval] on a non-null
    ref; the ref keeps its value. *)
Definition cleanup (st : TimerState) : TimerState :=
  match timerRef st with
  | RefLive => mkTimer (remainingTime st) (isRunning st) RefCleared (onEndCalls st)
  | _ => st
  end.

(** The body of the effect. *)
Definition effect (st : TimerState) : TimerState :=
  if isRunning st && (0 <? remainingTime st) then
    mkTimer (remainingTime st) (isRunning st) RefLive (onEndCalls st)
  else if (remainingTime st <=? 0) && isRunning st then endTimer st
  else st.

(** A render after a state change: the previous effect is cleaned up and
    the effect runs again. *)
Definition commit (st : TimerState) : TimerState := effect (cleanup st).

(** The callback given to [setInterval]: the updater of [setRemainingTime],
    which calls [endTimer] when [prevTime <= 1]. *)
Definition intervalCallback (st : TimerState) : TimerState :=
  if remainingTime st <=? 1 then
    let st' := endTimer st in
    mkTimer 0 (isRunning st') (timerRef st') (onEndCalls st')
  else
    mkTimer (remainingTime st - 1) (isRunning st) (timerRef st) (onEndCalls st).

(** One second passes: the interval fires if it is live. *)
Definition tick (st : TimerState) : TimerState :=
  match timerRef st with
  | RefLive => commit (intervalCallback st)
  | _ => st
  end.

Definition start (st : TimerState) : TimerState :=
  commit (mkTimer (remainingTime st) true (timerRef st) (onEndCalls st)).

Definition pause (st : TimerState) : TimerState :=
  commit (mkTimer (remainingTime st) false (timerRef st) (onEndCalls st)).

Definition setTime (newTime : Z) (st : TimerState) : TimerState :=
  if negb (isRunning st) then
    commit (mkTimer newTime (isRunning st) (timerRef st) (onEndCalls st))
  else st.

(** [n] seconds pass. *)
Definition ticks (n : nat) (st : TimerState) : TimerState := Nat.iter n tick st.

End Timer.

(** ** [JSON.parse] and [parseInt], as far as [startExam] needs them *)

Module JSON.

#[local] Set Warnings "-register-all".

(** The parse tree of a JSON text. Number and string tokens are kept as
    their lexemes (for a string, the text between the quotes). *)
Inductive json :=
  | JNull
  | JBool (b : bool)
  | JNumber (lexeme : string)
  | JString (lexeme : string)
  | JArray (elements : list json)
  | JObject (members : list (string * json)).

Definition code (c : ascii) : N := N_of_ascii c.

(** The quotation mark, U+0022. *)
Definition dquote : ascii := ascii_of_N 34.

(** JSON white space: TAB, LF, CR and SP. *)
Definition isJsonWs (c : ascii) : bool :=
  let n := code c in ((n =? 9) || (n =? 10) || (n =? 13) || (n =? 32))%N.

Definition isDigit (c : ascii) : bool :=
  let n := code c in ((48 <=? n) && (n <=? 57))%N.

Definition isHex (c : ascii) : bool :=
  let n := code c in
  (isDigit c || (65 <=? n) && (n <=? 70) || (97 <=? n) && (n <=? 102))%N.

Fixpoint skipWs (s : string) : string :=
  match s with
  | String c s' => if isJsonWs c then skipWs s' else s
  | EmptyString => EmptyString
  end.

(** [expect lit s]: [s] without the prefix [lit]. *)
Fixpoint expect (lit s : string) : option string :=
  match lit, s with
  | EmptyString, _ => Some s
  | String a lit', String b s' => if Ascii.eqb a b then expect lit' s' else None
  | String _ _, EmptyString => None
  end.

(** The longest prefix of digits and the rest. *)
Fixpoint digits (s : string) : string * string :=
  match s with
  | String c s' =>
      if isDigit c then let (d, r) := digits s' in (String c d, r)
      else (EmptyString, s)
  | EmptyString => (EmptyString, EmptyString)
  end.

(** int: [0] or a non-zero digit followed by digits. *)
Definition parseInt_part (s : string) : option (string * string) :=
  match s with
  | String c s' =>
      if Ascii.eqb c "0" then Some ("0"%string, s')
      else if isDigit c then let (d, r) := digits s' in Some (String c d, r)
      else None
  | EmptyString => None
  end.

Definition parseFrac (s : string) : option (string * string) :=
  match s with
  | String "." s' =>
      match digits s' with
      | (EmptyString, _) => None
      | (d, r) => Some (String "." d, r)
      end
  | _ => Some (EmptyString, s)
  end.

Definition parseExp (s : string) : option (string * string) :=
  match s with
  | String e s' =>
      if Ascii.eqb e "e" || Ascii.eqb e "E" then
        let (sign, s'') :=
          match s' with
          | String g t =>
              if Ascii.eqb g "+" || Ascii.eqb g "-"
              then (String g EmptyString, t) else (EmptyString, s')
          | EmptyString => (EmptyString, s')
          end in
        match digits s'' with
        | (EmptyString, _) => None
        | (d, r) => Some (String e (sign +:+ d), r)
        end
      else Some (EmptyString, s)
  | EmptyString => Some (EmptyString, s)
  end.

Definition parseNumber (s : string) : option (string * string) :=
  let (sign, s1) :=
    match s with
    | String "-" t => ("-"%string, t)
    | _ => (EmptyString, s)
    end in
  match parseInt_part s1 with
  | None => None
  | Some (i, s2) =>
      match parseFrac s2 with
      | None => None
      | Some (f, s3) =>
          match parseExp s3 with
          | None => None
          | Some (e, s4) => Some (sign +:+ i +:+ f +:+ e, s4)
          end
      end
  end.

(** The characters of a string token after the opening quote, up to the
    closing quote: no control character, and only the JSON escapes. *)
Fixpoint parseChars (s : string) : option (string * string) :=
  match s with
  | EmptyString => None
  | String c s' =>
      if Ascii.eqb c dquote then Some (EmptyString, s')
      else if (code c <? 32)%N then None
      else if Ascii.eqb c "\" then
        match s' with
        | String e s'' =>
            if Ascii.eqb e "u" then
              match s'' with
              | String h1 (String h2 (String h3 (String h4 t))) =>
                  if isHex h1 && isHex h2 && isHex h3 && isHex h4 then
                    match parseChars t with
                    | Some (l, r) =>
                        Some (String c (String e (String h1 (String h2
                               (String h3 (String h4 l))))), r)
                    | None => None
                    end
                  else None
              | _ => None
              end
            else if Ascii.eqb e dquote || Ascii.eqb e "\" || Ascii.eqb e "/"
                    || Ascii.eqb e "b" || Ascii.eqb e "f" || Ascii.eqb e "n"
                    || Ascii.eqb e "r" || Ascii.eqb e "t" then
              match parseChars s'' with
              | Some (l, r) => Some (String c (String e l), r)
              | None => None
              end
            else None
        | EmptyString => None
        end
      else
        match parseChars s' with
        | Some (l, r) => Some (String c l, r)
        | None => None
        end
  end.

(** Values, array elements and object members, by recursive descent. Every
    call uses one unit of [fuel]; [parse] gives enough for the whole text. *)
Fixpoint parseValue (fuel : nat) (s : string) {struct fuel} : option (json * string) :=
  match fuel with
  | O => None
  | S fuel' =>
      match s with
      | EmptyString => None
      | String c s' =>
          if Ascii.eqb c "n" then
            match expect "ull" s' with Some r => Some (JNull, r) | None => None end
          else if Ascii.eqb c "t" then
            match expect "rue" s' with Some r => Some (JBool true, r) | None => None end
          else if Ascii.eqb c "f" then
            match expect "alse" s' with Some r => Some (JBool false, r) | None => None end
          else if Ascii.eqb c dquote then
            match parseChars s' with
            | Some (l, r) => Some (JString l, r)
            | None => None
            end
          else if Ascii.eqb c "[" then
            match skipWs s' with
            | String "]" r => Some (JArray [], r)
            | s'' =>
                match parseElements fuel' s'' with
                | Some (l, r) => Some (JArray l, r)
                | None => None
                end
            end
          else if Ascii.eqb c "{" then
            match skipWs s' with
            | String "}" r => Some (JObject [], r)
            | s'' =>
                match parseMembers fuel' s'' with
                | Some (l, r) => Some (JObject l, r)
                | None => None
                end
            end
          else
            match parseNumber s with
            | Some (n, r) => Some (JNumber n, r)
            | None => None
            end
      end
  end
with parseElements (fuel : nat) (s : string) {struct fuel} : option (list json * string) :=
  match fuel with
  | O => None
  | S fuel' =>
      match parseValue fuel' (skipWs s) with
      | None => None
      | Some (v, r) =>
          match skipWs r with
          | String "]" r' => Some ([v], r')
          | String "," r' =>
              match parseElements fuel' r' with
              | Some (l, r'') => Some (v :: l, r'')
              | None => None
              end
          | _ => None
          end
      end
  end
with parseMembers (fuel : nat) (s : string) {struct fuel} : option (list (string * json) * string) :=
  match fuel with
  | O => None
  | S fuel' =>
      match skipWs s with
      | String c s1 =>
          if negb (Ascii.eqb c dquote) then None else
          match parseChars s1 with
          | None => None
          | Some (k, s2) =>
              match skipWs s2 with
              | String ":" s3 =>
                  match parseValue fuel' (skipWs s3) with
                  | None => None
                  | Some (v, r) =>
                      match skipWs r with
                      | String "}" r' => Some ([(k, v)], r')
                      | String "," r' =>
                          match parseMembers fuel' r' with
                          | Some (l, r'') => Some ((k, v) :: l, r'')
                          | None => None
                          end
                      | _ => None
                      end
                  end
              | _ => None
              end
          end
      | EmptyString => None
      end
  end.

(** [JSON.parse]: [None] stands for the [SyntaxError] it throws. The fuel
    bounds the depth of the calls; a call of [parseValue] consumes a
    character before it descends into elements or members, and a further
    element or member is read after a comma, so twice the length of the text
    is enough ([parse_fuel_enough] below). *)
Definition parse (text : string) : option json :=
  match parseValue (2 * String.length text + 2) (skipWs text) with
  | Some (v, r) =>
      match skipWs r with
      | EmptyString => Some v
      | _ => None
      end
  | None => None
  end.

(** The value of a string of decimal digits, most significant first. *)
Fixpoint digitsValue (acc : Z) (s : string) : Z :=
  match s with
  | EmptyString => acc
  | String c s' => digitsValue (10 * acc + (Z.of_N (code c) - 48)) s'
  end.

(** [parseInt(s, 10)]: leading white space is skipped, a sign is read, then
    the longest run of digits; [None] stands for [NaN]. *)
Definition parseInt (s : string) : option Z :=
  let s1 := trimStart s in
  let (neg, s2) :=
    match s1 with
    | String "-" t => (true, t)
    | String "+" t => (false, t)
    | _ => (false, s1)
    end in
  match digits s2 with
  | (EmptyString, _) => None
  | (d, _) => Some (if neg then - digitsValue 0 d else digitsValue 0 d)
  end.

End JSON.


(** ** [Number.prototype.toString] for integers *)

Module JSNumber.

(** The decimal digits of [n >= 0] in front of [acc], least significant
    digit first into the accumulator. [fuel] bounds the number of digits. *)
Fixpoint natDigits (fuel : nat) (n : Z) (acc : string) : string :=
  match fuel with
  | O => acc
  | S fuel' =>
      let acc' := String (ascii_of_N (Z.to_N (48 + n mod 10))) acc in
      if n <? 10 then acc' else natDigits fuel' (n / 10) acc'
  end.

(** [toString()] of an integer (below 10^21 in absolute value, where
    JavaScript prints all the digits): a minus sign for a negative number,
    then the decimal digits. *)
Definition toString (z : Z) : string :=
  if z <? 0
  then String "-" (natDigits (S (Z.to_nat (Z.log2 (- z)))) (- z) EmptyString)
  else natDigits (S (Z.to_nat (Z.log2 z))) z EmptyString.

End JSNumber.

(** ** [src/App.tsx] *)

Module App.

Inductive View := upload | processing | exam | results.

(** What a [catch] clause can receive here: the [SyntaxError] of
    [JSON.parse]. *)
Inductive JSError := SyntaxError.

(** The two texts [setProcessingError] is given: the "No questions could be
    parsed from the PDF..." text of [startExam], and the
    [`AI parsing failed: ${error.message}`] text of [handleFileUpload]. *)
Inductive ErrorText :=
  | NoQuestionsParsed
  | AIParsingFailed (e : JSError).

(** The [attempt] state holds what [setAttempt] was given: an attempt
    built by the code, or whatever [JSON.parse] returned for the saved
    blob (it is stored as it is, and the JSON [null] is the null state). *)
Inductive AttemptValue :=
  | Built (a : Attempt)
  | Loaded (j : JSON.json).

(** The state of the [App] component that [startExam] writes. *)
Record AppState := mkApp {
  view : View;
  sessionId : option string;
  processingError : option ErrorText;
  questionSet : option QuestionSet;
  attempt : option AttemptValue;
  currentQuestionIndex : Z
}.

(** [useState] initial values. *)
Definition initialState : AppState :=
  mkApp upload None None None None 0.

(** A call either returns or throws. *)
Inductive Outcome (A : Type) :=
  | Returned (a : A)
  | Thrown (e : JSError).
Arguments Returned {A} a.
Arguments Thrown {A} e.

Definition EXAM_DURATION_SECONDS : Z := 180 * 60.

(** [localStorage.getItem(key)]: a string or null. *)
Definition getItem (localStorage : gmap string string) (key : string) : option string :=
  localStorage !! key.

(** [qSet.questions.forEach(q => statuses[q.qid] = NotVisited)] followed by
    [statuses[qSet.questions[0].qid] = NotAnswered]. *)
Definition initialStatuses (first : Question) (qs : list Question) : gmap Z QuestionStatus :=
  <[qid first := NotAnswered]>
    (fold_left (fun st q => <[qid q := NotVisited]> st) qs ∅).

(** [questions.findIndex(q => q.qid === n)], -1 when there is none; [None]
    for [n] is [NaN], which equals no qid. *)
Fixpoint findIndex (n : option Z) (qs : list Question) (i : Z) : Z :=
  match qs with
  | [] => -1
  | q :: qs' => if bool_decide (Some (qid q) = n) then i else findIndex n qs' (i + 1)
  end.

(** What [setAttempt(savedAttempt)] leaves in the state. *)
Definition loadedAttempt (savedAttempt : JSON.json) : option AttemptValue :=
  match savedAttempt with
  | JSON.JNull => None
  | j => Some (Loaded j)
  end.

(** [startExam(qSet, currentSessionId)], with the value [now] of
    [Date.now()] and the content of [localStorage]. An empty string read
    from the storage is falsy, like null. When no last qid is stored,
    [parseInt] is applied to the first qid, that is, to its text. *)
Definition startExam (now : Z) (localStorage : gmap string string)
    (qSet : QuestionSet) (currentSessionId : string) (st : AppState)
    : Outcome AppState :=
  match questions qSet with
  | [] =>
      Returned (mkApp upload (sessionId st) (Some NoQuestionsParsed)
                  (questionSet st) (attempt st) (currentQuestionIndex st))
  | first :: _ =>
      let statuses := initialStatuses first (questions qSet) in
      let savedAttemptRaw := getItem localStorage ("attempt_" +:+ currentSessionId) in
      match savedAttemptRaw with
      | Some (String c raw' as raw) =>
          match JSON.parse raw with
          | None => Thrown SyntaxError
          | Some savedAttempt =>
              let lastQuestionId :=
                match getItem localStorage ("last_qid_" +:+ currentSessionId) with
                | Some (String _ _ as s) => JSON.parseInt s
                | _ => JSON.parseInt (JSNumber.toString (qid first))
                end in
              let savedIndex := findIndex lastQuestionId (questions qSet) 0 in
              Returned (mkApp exam (sessionId st) (processingError st)
                          (questionSet st) (loadedAttempt savedAttempt)
                          (if 0 <=? savedIndex then savedIndex else 0))
          end
      | _ =>
          let newAttempt :=
            {| uploadId := currentSessionId;
               userId := "local_user";
               timer := mkTimerInfo now EXAM_DURATION_SECONDS EXAM_DURATION_SECONDS;
               answers := ∅;
               statuses := statuses;
               status := inProgress;
               score := None |} in
          Returned (mkApp exam (sessionId st) (processingError st)
                      (questionSet st) (Some (Built newAttempt)) 0)
      end
  end.

(** [handleFileUpload] from the point where [parsePdfWithGemini] has
    returned [parsedQuestionSet]: the rest of the [try] block and the
    [catch] clause. *)
Definition handleFileUpload (now : Z) (localStorage : gmap string string)
    (parsedQuestionSet : QuestionSet) (newSessionId : string) (st : AppState)
    : AppState :=
  let st1 := mkApp (view st) (Some newSessionId) (processingError st)
               (Some parsedQuestionSet) (attempt st) (currentQuestionIndex st) in
  match startExam now localStorage parsedQuestionSet newSessionId st1 with
  | Returned st2 => st2
  | Thrown e =>
      mkApp upload (sessionId st1) (Some (AIParsingFailed e))
        (questionSet st1) (attempt st1) (currentQuestionIndex st1)
  end.

(** *** The handlers of [ExamView]. Each is the updater given to
    [setAttempt], applied to the previous attempt. *)

Definition withStatuses (a : Attempt) (s : gmap Z QuestionStatus) : Attempt :=
  {| uploadId := uploadId a; userId := userId a; timer := timer a;
     answers := answers a; statuses := s;
     status := status a; score := score a |}.

Definition updateStatus (qid : Z) (newStatus : QuestionStatus)
    (prev : option Attempt) : option Attempt :=
  match prev with
  | None => None
  | Some prev => Some (withStatuses prev (<[qid := newStatus]> (statuses prev)))
  end.

(** Truthiness of [answers[qid]]: a non-empty string. *)
Definition hasAnswer (a : option string) : bool :=
  match a with
  | Some s => truthy s
  | None => false
  end.

Definition handleAnswerChange (qid : Z) (answer : string)
    (prev : option Attempt) : option Attempt :=
  match prev with
  | None => None
  | Some prev =>
      let updatedAnswers := <[qid := answer]> (answers prev) in
      let currentStatus := statuses prev !! qid in
      let newStatus :=
        if truthy answer then
          match currentStatus with
          | Some MarkedForReview | Some AnsweredAndMarked => AnsweredAndMarked
          | _ => Answered
          end
        else
          match currentStatus with
          | Some AnsweredAndMarked => MarkedForReview
          | Some MarkedForReview => MarkedForReview
          | _ => NotAnswered
          end in
      Some {| uploadId := uploadId prev; userId := userId prev;
              timer := timer prev;
              answers := updatedAnswers;
              statuses := <[qid := newStatus]> (statuses prev);
              status := status prev; score := score prev |}
  end.

(** [handleMarkForReview] for the question on display and the attempt of
    the current render. *)
Definition handleMarkForReview (currentQuestion : option Question)
    (attempt : Attempt) : option Attempt :=
  match currentQuestion with
  | None => Some attempt
  | Some cq =>
      let qid := qid cq in
      let currentStatus := statuses attempt !! qid in
      let newStatus :=
        if bool_decide (currentStatus = Some MarkedForReview) then
          if hasAnswer (answers attempt !! qid) then Answered else NotAnswered
        else if bool_decide (currentStatus = Some AnsweredAndMarked) then Answered
        else
          if hasAnswer (answers attempt !! qid) then AnsweredAndMarked
          else MarkedForReview in
      updateStatus qid newStatus (Some attempt)
  end.

(** [clearResponse]. *)
Definition clearResponse (currentQuestion : option Question)
    (prev : option Attempt) : option Attempt :=
  match currentQuestion with
  | Some cq => handleAnswerChange (qid cq) EmptyString prev
  | None => prev
  end.

End App.

(** ** The transition table of the specification, section 4.1 *)

Module Table.

(** [ToggleMark] as the specification words it: from [MarkedForReview] to
    [Answered] if answered, else [NotAnswered]; from [AnsweredAndMarked] to
    [Answered]; from any other status to [AnsweredAndMarked] if answered,
    else [MarkedForReview]. The code is [App.handleMarkForReview]; the two
    are compared below. *)
Definition toggleMark (current : QuestionStatus) (answered : bool) : QuestionStatus :=
  match current with
  | MarkedForReview => if answered then Answered else NotAnswered
  | AnsweredAndMarked => Answered
  | _ => if answered then AnsweredAndMarked else MarkedForReview
  end.

(** A status that carries the review mark. *)
Definition isMarked (current : option QuestionStatus) : bool :=
  match current with
  | Some MarkedForReview | Some AnsweredAndMarked => true
  | _ => false
  end.

End Table.

(** ** Concrete exams used to exercise the definitions *)

Module Scenario.

(** The marking scheme [parsePdfWithGemini] puts in every question set. *)
Definition catMarking : MarkingScheme :=
  mkMarking (mkMarks 3 (-1)) (mkMarks 3 0).

Definition question (id : Z) (t : QuestionType) (key : option string) : Question :=
  mkQuestion id t key None None.

Definition examOf (m : MarkingScheme) (qs : list Question) : QuestionSet :=
  mkQuestionSet (mkMeta "CAT" (Z.of_nat (length qs)) 0 m) qs.

Definition attemptOf (ans : gmap Z string) (sts : gmap Z QuestionStatus) : Attempt :=
  mkAttempt "paper.pdf-1" "local_user"
    (mkTimerInfo 0 App.EXAM_DURATION_SECONDS App.EXAM_DURATION_SECONDS)
    ans sts inProgress None.

(** The question set without the question between [pre] and [post]. *)
Definition without (qSet : QuestionSet) (pre post : list Question) : QuestionSet :=
  mkQuestionSet (meta qSet) (pre ++ post).

(** The attempt with another answers object. *)
Definition withAnswers (a : Attempt) (ans : gmap Z string) : Attempt :=
  {| uploadId := uploadId a; userId := userId a; timer := timer a;
     answers := ans; statuses := statuses a;
     status := status a; score := score a |}.

(** The question set with another marking scheme. *)
Definition withMarking (qSet : QuestionSet) (m : MarkingScheme) : QuestionSet :=
  mkQuestionSet
    (mkMeta (title (meta qSet)) (totalQuestions (meta qSet))
       (totalPassages (meta qSet)) m)
    (questions qSet).

End Scenario.

(** ** [src/App.tsx]: navigation, filter and pause of [ExamView] *)

Module ExamView.

(** [questionSet.questions[i]]: undefined outside the array. *)
Definition questionAt (qs : list Question) (i : Z) : option Question :=
  if i <? 0 then None else qs !! Z.to_nat i.

(** The [filteredQuestions] memo: all the questions for the section 'All',
    else those whose [section] is the current one. *)
Definition filteredQuestions (currentSection : string) (qs : list Question) : list Question :=
  if String.eqb currentSection "All" then qs
  else List.filter
         (fun q => match section q with
                   | Some s => String.eqb s currentSection
                   | None => false
                   end) qs.

(** [Array.from(new Set(l))]: the elements of [l] without repetition, in
    the order of their first occurrence. [seen] is the set so far. *)
Fixpoint setOrder (seen l : list string) : list string :=
  match l with
  | [] => []
  | x :: l' =>
      if bool_decide (x ∈ seen) then setOrder seen l'
      else x :: setOrder (x :: seen) l'
  end.

(** [questions.map(q => q.section).filter(s => !!s)]: the sections that are
    non-empty strings. *)
Fixpoint sectionNames (qs : list Question) : list string :=
  match qs with
  | [] => []
  | q :: qs' =>
      match section q with
      | Some (String _ _ as s) => s :: sectionNames qs'
      | _ => sectionNames qs'
      end
  end.

(** The [sections] memo. *)
Definition sections (qs : list Question) : list string :=
  "All"%string :: setOrder [] (sectionNames qs).

(** What a call of [handleQuestionSelect] leaves: the attempt and the new
    index, or, when [questionSet.questions[index]] is undefined and reading
    its [qid] throws, the attempt as updated before the throw. *)
Inductive SelectResult :=
  | Selected (a : option Attempt) (i : Z)
  | SelectThrows (a : option Attempt).

(** [handleQuestionSelect(index)] in a render with the given attempt and
    current index. Both tests read the statuses of the render; the updates
    are applied one after the other. *)
Definition handleQuestionSelect (qs : list Question) (currentQuestionIndex : Z)
    (attempt : Attempt) (index : Z) : SelectResult :=
  let a1 :=
    match questionAt qs currentQuestionIndex with
    | Some cq =>
        if bool_decide (statuses attempt !! qid cq = Some NotVisited)
        then App.updateStatus (qid cq) NotAnswered (Some attempt)
        else Some attempt
    | None => Some attempt
    end in
  match questionAt qs index with
  | None => SelectThrows a1
  | Some nq =>
      Selected
        (if bool_decide (statuses attempt !! qid nq = Some NotVisited)
         then App.updateStatus (qid nq) NotAnswered a1
         else a1)
        index
  end.

(** The effect that copies [remainingTime] into the attempt. *)
Definition syncRemaining (remainingTime : Z) (prev : option Attempt) : option Attempt :=
  match prev with
  | None => None
  | Some prev =>
      Some {| uploadId := uploadId prev; userId := userId prev;
              timer := mkTimerInfo (startedAt (timer prev))
                         (durationSec (timer prev)) remainingTime;
              answers := answers prev; statuses := statuses prev;
              status := status prev; score := score prev |}
  end.

Inductive Direction := next | prev.

(** [navigateWithinFilter(direction)] for the question [cq] on display;
    [None] when nothing is called. *)
Definition navigateWithinFilter (qs : list Question) (currentSection : string)
    (currentQuestionIndex : Z) (cq : Question) (attempt : Attempt)
    (direction : Direction) : option SelectResult :=
  let filtered := filteredQuestions currentSection qs in
  let currentFilteredIndex := App.findIndex (Some (qid cq)) filtered 0 in
  let nextFilteredIndex :=
    match direction with
    | next => currentFilteredIndex + 1
    | prev => currentFilteredIndex - 1
    end in
  if (0 <=? nextFilteredIndex) && (nextFilteredIndex <? Z.of_nat (length filtered)) then
    match questionAt filtered nextFilteredIndex with
    | Some nq =>
        let originalIndex := App.findIndex (Some (qid nq)) qs 0 in
        if negb (originalIndex =? -1)
        then Some (handleQuestionSelect qs currentQuestionIndex attempt originalIndex)
        else None
    | None => None
    end
  else None.

(** The index [QuestionNavigator] gives to [onSelect] for the palette
    button of [q]. *)
Definition originalIndex (qs : list Question) (q : Question) : Z :=
  App.findIndex (Some (qid q)) qs 0.

(** [togglePause]. *)
Definition togglePause (st : Timer.TimerState) : Timer.TimerState :=
  if Timer.isRunning st then Timer.pause st else Timer.start st.

(** The count shown in the submit dialog:
    [Object.values(attempt.answers).filter(a => a && a.trim() !== '').length]. *)
Definition answeredCount (attempt : Attempt) : Z :=
  Z.of_nat
    (length
       (List.filter (fun a => ExamLogic.isAnswered (Some a))
          (snd <$> map_to_list (answers attempt)))).

End ExamView.

(** ** [src/App.tsx]: the results view *)

Module Results.

(** The three looks of a [ResultItem]: green check, red cross, or grey. *)
Inductive Verdict := ShownCorrect | ShownWrong | ShownUnanswered.

#[global] Instance Verdict_eq_dec : EqDecision Verdict.
Proof. solve_decision. Defined.

(** Truthiness of [question.answerKey]: a non-empty string. *)
Definition hasKey (q : Question) : bool :=
  match answerKey q with
  | Some k => truthy k
  | None => false
  end.

(** [isAnswered] and [isCorrect] of [ResultItem], and the branch taken for
    [statusClasses]. *)
Definition resultItem (question : Question) (userAnswer : option string) : Verdict :=
  match userAnswer with
  | Some a =>
      if truthy a && negb (String.eqb (trim a) EmptyString) then
        if hasKey question
           && String.eqb (toLowerCase (trim a))
                (toLowerCase (default EmptyString (answerKey question)))
        then ShownCorrect
        else ShownWrong
      else ShownUnanswered
  | None => ShownUnanswered
  end.

(** [hasAnswerKey] of [ResultsView]: the answer review is rendered only
    when it holds. *)
Definition hasAnswerKey (qSet : QuestionSet) : bool :=
  existsb hasKey (questions qSet).

End Results.

(** ** [src/App.tsx]: autosave and submission *)

Module Session.

(** The state of [App] at the types the component declares. *)
Record State := mkState {
  view : App.View;
  sessionId : option string;
  questionSet : option QuestionSet;
  attempt : option Attempt;
  currentQuestionIndex : Z;
  localStorage : gmap string string
}.

Section Persist.

(** [JSON.stringify] on an attempt. What it writes is removed or replaced
    before anything here reads it back. *)
Variable JSON_stringify : Attempt -> string.

(** [autosaveAttempt]. A session id is truthy when it is not empty. *)
Definition autosaveAttempt (s : State) : State :=
  match attempt s, sessionId s with
  | Some a, Some (String _ _ as sid) =>
      let ls1 := <[String.append "attempt_" sid := JSON_stringify a]> (localStorage s) in
      let ls2 :=
        match questionSet s with
        | Some qSet =>
            match ExamView.questionAt (questions qSet) (currentQuestionIndex s) with
            | Some q => <[String.append "last_qid_" sid := JSNumber.toString (qid q)]> ls1
            | None => ls1
            end
        | None => ls1
        end in
      mkState (view s) (sessionId s) (questionSet s) (attempt s)
        (currentQuestionIndex s) ls2
  | _, _ => s
  end.

(** The callback of the autosave timeout. *)
Definition autosaveTimeout (s : State) : State :=
  match view s with
  | App.exam => autosaveAttempt s
  | _ => s
  end.

(** [submitExam]. *)
Definition submitExam (s : State) : State :=
  match attempt s, questionSet s with
  | Some a, Some qSet =>
      let s1 := autosaveAttempt s in
      let score := ExamLogic.calculateScore a qSet in
      let finalAttempt :=
        {| uploadId := uploadId a; userId := userId a; timer := timer a;
           answers := answers a; statuses := statuses a;
           status := submitted; score := Some score |} in
      let ls :=
        match sessionId s with
        | Some (String _ _ as sid) =>
            delete (String.append "last_qid_" sid)
              (delete (String.append "attempt_" sid) (localStorage s1))
        | _ => localStorage s1
        end in
      mkState App.results (sessionId s) (questionSet s) (Some finalAttempt)
        (currentQuestionIndex s) ls
  | _, _ => s
  end.

End Persist.

End Session.

(** ** Sequences of events *)

Module Events.

(** What can happen to a timer. *)
Inductive TimerEvent :=
  | Tick
  | Start
  | Pause
  | TogglePause
  | SetTime (v : Z).

Definition timerStep (st : Timer.TimerState) (e : TimerEvent) : Timer.TimerState :=
  match e with
  | Tick => Timer.tick st
  | Start => Timer.start st
  | Pause => Timer.pause st
  | TogglePause => ExamView.togglePause st
  | SetTime v => Timer.setTime v st
  end.

Definition timerRun (es : list TimerEvent) (st : Timer.TimerState) : Timer.TimerState :=
  fold_left timerStep es st.

(** What the candidate can do to an attempt in the exam view. *)
Inductive ExamEvent :=
  | AnswerChange (id : Z) (answer : string)
  | ClearResponse (cq : option Question)
  | MarkForReview (cq : option Question)
  | QuestionSelect (qs : list Question) (currentQuestionIndex index : Z).

Definition examStep (a : Attempt) (e : ExamEvent) : Attempt :=
  default a
    match e with
    | AnswerChange id answer => App.handleAnswerChange id answer (Some a)
    | ClearResponse cq => App.clearResponse cq (Some a)
    | MarkForReview cq => App.handleMarkForReview cq a
    | QuestionSelect qs i j =>
        match ExamView.handleQuestionSelect qs i a j with
        | ExamView.Selected a' _ => a'
        | ExamView.SelectThrows a' => a'
        end
    end.

Definition examRun (es : list ExamEvent) (a : Attempt) : Attempt :=
  fold_left examStep es a.

(** A status that says the question is answered. *)
Definition saysAnswered (s : option QuestionStatus) : bool :=
  match s with
  | Some Answered | Some AnsweredAndMarked => true
  | _ => false
  end.

End Events.

(** ** The [useTimer] hook with its intervals spelled out *)

(** [Timer] above keeps one flag for the interval of the ref. Here every
    interval that [setInterval] creates is kept until [clearInterval] stops
    it, whether the ref still holds its id or not, and a second going by
    fires every live interval. That the hook never has more than one live
    interval is then a fact to prove about the clean-up of the effect, and
    [abstract] relates the two descriptions. *)

Module Hook.

Record HookState := mkHook {
  remainingTime : Z;
  isRunning : bool;
  (** [timerRef.current]: null or an interval id *)
  timerRef : option nat;
  (** the ids of the live intervals, oldest first *)
  intervals : list nat;
  (** the id the next [setInterval] returns *)
  nextId : nat;
  (** the calls of [onEnd] so far *)
  onEndCalls : nat
}.

(** The state at mount. Interval ids are positive, hence truthy. *)
Definition useTimer (durationSeconds : Z) : HookState :=
  mkHook durationSeconds false None [] 1 0.

Definition isLive (id : nat) (st : HookState) : bool :=
  existsb (Nat.eqb id) (intervals st).

(** [clearInterval(id)]: nothing happens for an id that is not live. *)
Definition clearInterval (id : nat) (st : HookState) : HookState :=
  mkHook (remainingTime st) (isRunning st) (timerRef st)
    (List.filter (fun i => negb (Nat.eqb i id)) (intervals st))
    (nextId st) (onEndCalls st).

(** [timerRef.current = window.setInterval(...)]. *)
Definition setInterval (st : HookState) : HookState :=
  mkHook (remainingTime st) (isRunning st) (Some (nextId st))
    (intervals st ++ [nextId st]) (S (nextId st)) (onEndCalls st).

Definition endTimer (st : HookState) : HookState :=
  let st1 :=
    match timerRef st with
    | Some id =>
        let c := clearInterval id st in
        mkHook (remainingTime c) (isRunning c) None (intervals c)
          (nextId c) (onEndCalls c)
    | None => st
    end in
  mkHook (remainingTime st1) false (timerRef st1) (intervals st1)
    (nextId st1) (S (onEndCalls st1)).

(** The function the effect returns. *)
Definition cleanup (st : HookState) : HookState :=
  match timerRef st with
  | Some id => clearInterval id st
  | None => st
  end.

(** The body of the effect. *)
Definition effect (st : HookState) : HookState :=
  if isRunning st && (0 <? remainingTime st) then setInterval st
  else if (remainingTime st <=? 0) && isRunning st then endTimer st
  else st.

(** A render after a state change: clean-up, then the effect. *)
Definition commit (st : HookState) : HookState := effect (cleanup st).

(** The callback of an interval. *)
Definition intervalCallback (st : HookState) : HookState :=
  if remainingTime st <=? 1 then
    let st' := endTimer st in
    mkHook 0 (isRunning st') (timerRef st') (intervals st')
      (nextId st') (onEndCalls st')
  else
    mkHook (remainingTime st - 1) (isRunning st) (timerRef st)
      (intervals st) (nextId st) (onEndCalls st).

(** Interval [id] comes due: its callback runs, and the component renders,
    if the interval has not been cleared. *)
Definition fire (st : HookState) (id : nat) : HookState :=
  if isLive id st then commit (intervalCallback st) else st.

(** One second passes: every interval that was live comes due once,
    oldest first. *)
Definition tick (st : HookState) : HookState :=
  fold_left fire (intervals st) st.

Definition start (st : HookState) : HookState :=
  commit (mkHook (remainingTime st) true (timerRef st) (intervals st)
            (nextId st) (onEndCalls st)).

Definition pause (st : HookState) : HookState :=
  commit (mkHook (remainingTime st) false (timerRef st) (intervals st)
            (nextId st) (onEndCalls st)).

Definition setTime (newTime : Z) (st : HookState) : HookState :=
  if negb (isRunning st) then
    commit (mkHook newTime (isRunning st) (timerRef st) (intervals st)
              (nextId st) (onEndCalls st))
  else st.

Definition togglePause (st : HookState) : HookState :=
  if isRunning st then pause st else start st.

Definition ticks (n : nat) (st : HookState) : HookState := Nat.iter n tick st.

Definition step (st : HookState) (e : Events.TimerEvent) : HookState :=
  match e with
  | Events.Tick => tick st
  | Events.Start => start st
  | Events.Pause => pause st
  | Events.TogglePause => togglePause st
  | Events.SetTime v => setTime v st
  end.

Definition run (es : list Events.TimerEvent) (st : HookState) : HookState :=
  fold_left step es st.

(** The flag of [Timer] for the interval of the ref. *)
Definition refState (st : HookState) : Timer.IntervalRef :=
  match timerRef st with
  | None => Timer.RefNull
  | Some id => if isLive id st then Timer.RefLive else Timer.RefCleared
  end.

(** The [Timer] state that a hook state stands for. *)
Definition abstract (st : HookState) : Timer.TimerState :=
  Timer.mkTimer (remainingTime st) (isRunning st) (refState st) (onEndCalls st).

(** No interval is live but the one whose id the ref holds. *)
Definition singleInterval (st : HookState) : Prop :=
  intervals st = []
  \/ exists id, intervals st = [id] /\ timerRef st = Some id.

End Hook.

(** * Properties *)

Import Timer JSON App Scenario.

(** ** Strings *)

Section StringFacts.

Lemma trimStart_all_ws (w : string) :
  allWhiteSpace w = true -> trimStart w = EmptyString.
Proof.
  induction w as [|c w IH]; simpl; [done|].
  intros [Hc Hw]%andb_true_iff. rewrite Hc. auto.
Qed.

Lemma trimEnd_all_ws (w : string) :
  allWhiteSpace w = true -> trimEnd w = EmptyString.
Proof.
  induction w as [|c w IH]; simpl; [done|].
  intros [Hc Hw]%andb_true_iff. rewrite (IH Hw), Hc. done.
Qed.

Lemma trim_all_ws (w : string) :
  allWhiteSpace w = true -> trim w = EmptyString.
Proof. intros H. unfold trim. by rewrite trimStart_all_ws. Qed.

Lemma trimStart_app_ws (w s : string) :
  allWhiteSpace w = true -> trimStart (w +:+ s) = trimStart s.
Proof.
  induction w as [|c w IH]; simpl; [done|].
  intros [Hc Hw]%andb_true_iff. rewrite Hc. auto.
Qed.

Lemma trimEnd_app_ws (s w : string) :
  allWhiteSpace w = true -> trimEnd (s +:+ w) = trimEnd s.
Proof.
  intros Hw. induction s as [|c s IH]; simpl.
  - by apply trimEnd_all_ws.
  - by rewrite IH.
Qed.

Lemma trim_app_ws_r (s w : string) :
  allWhiteSpace w = true -> trim (s +:+ w) = trim s.
Proof.
  intros Hw. unfold trim. induction s as [|c s IH]; simpl.
  - by rewrite trimStart_all_ws.
  - destruct (isWhiteSpace c); [done|].
    change (String c (s +:+ w)) with (String c s +:+ w).
    by apply trimEnd_app_ws.
Qed.

(** White space around a string does not change what [trim] returns. *)
Lemma trim_pad (w1 s w2 : string) :
  allWhiteSpace w1 = true -> allWhiteSpace w2 = true ->
  trim (w1 +:+ s +:+ w2) = trim s.
Proof.
  intros H1 H2. rewrite <- (trim_app_ws_r s w2 H2).
  unfold trim. by rewrite trimStart_app_ws.
Qed.

Lemma truthy_pad (w1 s w2 : string) :
  truthy s = true -> truthy (w1 +:+ s +:+ w2) = true.
Proof. destruct w1, s; simpl; done. Qed.

End StringFacts.

(** ** The fuel of [JSON.parse] *)

Section JSONFacts.


Local Abbreviation len := String.length.

Lemma skipWs_length s : (len (skipWs s) <= len s)%nat.
Proof. induction s as [|c s IH]; simpl; [lia|]. destruct (isJsonWs c); simpl; lia. Qed.

Lemma expect_length lit s r : expect lit s = Some r -> (len r <= len s)%nat.
Proof.
  revert s. induction lit as [|a lit IH]; intros s; simpl.
  - intros [= ->]. lia.
  - destruct s as [|b s]; [done|]. destruct (Ascii.eqb a b); [|done].
    intros H%IH. simpl. lia.
Qed.

Lemma digits_length s : (len (snd (digits s)) <= len s)%nat.
Proof.
  induction s as [|c s IH]; simpl; [lia|].
  destruct (isDigit c); simpl; [|lia].
  destruct (digits s); simpl in *. lia.
Qed.

Lemma parseNumber_length s n r : parseNumber s = Some (n, r) -> (len r < len s)%nat.
Proof.
  unfold parseNumber, parseInt_part, parseFrac, parseExp.
  intros H.
  repeat (case_match; simplify_eq; simpl in * );
  repeat match goal with
  | H : digits ?s = (_, ?r) |- _ =>
      let L := fresh in pose proof (digits_length s) as L; rewrite H in L; simpl in L; clear H
  end; try lia.
Qed.


Lemma parseChars_length s l r : parseChars s = Some (l, r) -> (len r < len s)%nat.
Proof.
  remember (len s) as n eqn:Hn. revert s l r Hn.
  induction (lt_wf n) as [n _ IH]. intros s l r -> H.
  destruct s as [|c s]; [done|]. simpl in H.
  repeat (case_match; simplify_eq; simpl in * );
  try match goal with
  | H : parseChars ?t = Some (_, ?r) |- _ =>
      eapply (IH (len t)) in H; [|simpl; lia|reflexivity]
  end; simpl in *; lia.
Qed.

Ltac skipWs_bounds :=
  repeat match goal with
  | H : context [String.length (skipWs ?x)] |- _ =>
      lazymatch goal with
      | _ : (String.length (skipWs x) <= String.length x)%nat |- _ => fail
      | _ => pose proof (skipWs_length x)
      end
  end.

Lemma parsers_length (fuel : nat) :
  (forall s v r, parseValue fuel s = Some (v, r) -> (len r < len s)%nat)
  /\ (forall s l r, parseElements fuel s = Some (l, r) -> (len r < len s)%nat)
  /\ (forall s l r, parseMembers fuel s = Some (l, r) -> (len r < len s)%nat).
Proof.
  induction fuel as [|fuel (IHv & IHe & IHm)]; [repeat split; intros; discriminate|].
  split; [|split].
  - intros s v r H. simpl in H. destruct s as [|c s]; [done|].
    repeat (case_match; simplify_eq; simpl in * );
    repeat match goal with
    | H : expect _ _ = Some _ |- _ => apply expect_length in H
    | H : parseChars _ = Some _ |- _ => apply parseChars_length in H
    | H : parseNumber _ = Some _ |- _ => apply parseNumber_length in H
    | H : parseElements _ _ = Some _ |- _ => apply IHe in H
    | H : parseMembers _ _ = Some _ |- _ => apply IHm in H
    | H : skipWs ?s = _ |- _ =>
        let L := fresh in pose proof (skipWs_length s) as L; rewrite H in L; clear H
    end; simpl in *; skipWs_bounds; lia.
  - intros s l r H. simpl in H.
    repeat (case_match; simplify_eq; simpl in * );
    repeat match goal with
    | H : parseValue _ _ = Some _ |- _ => apply IHv in H
    | H : parseElements _ _ = Some _ |- _ => apply IHe in H
    | H : skipWs ?s = _ |- _ =>
        let L := fresh in pose proof (skipWs_length s) as L; rewrite H in L; clear H
    end; pose proof (skipWs_length s); simpl in *; skipWs_bounds; lia.
  - intros s l r H. simpl in H.
    repeat (case_match; simplify_eq; simpl in * );
    repeat match goal with
    | H : parseValue _ _ = Some _ |- _ => apply IHv in H
    | H : parseMembers _ _ = Some _ |- _ => apply IHm in H
    | H : parseChars _ = Some _ |- _ => apply parseChars_length in H
    | H : skipWs ?s = _ |- _ =>
        let L := fresh in pose proof (skipWs_length s) as L; rewrite H in L; clear H
    end; simpl in *; skipWs_bounds; lia.
Qed.

Ltac len_facts :=
  repeat match goal with
  | H : parseValue _ _ = Some _ |- _ => apply (proj1 (parsers_length _)) in H
  | H : parseElements _ _ = Some _ |- _ => apply (proj1 (proj2 (parsers_length _))) in H
  | H : parseMembers _ _ = Some _ |- _ => apply (proj2 (proj2 (parsers_length _))) in H
  | H : parseChars _ = Some _ |- _ => apply parseChars_length in H
  | H : skipWs ?s = _ |- _ =>
      let L := fresh in pose proof (skipWs_length s) as L; rewrite H in L; clear H
  end;
  repeat match goal with
  | |- context [String.length (skipWs ?x)] =>
      lazymatch goal with
      | _ : (String.length (skipWs x) <= String.length x)%nat |- _ => fail
      | _ => pose proof (skipWs_length x)
      end
  end;
  simpl in *; skipWs_bounds; lia.

Lemma parsers_fuel (f1 : nat) :
  (forall f2 s, (2 * len s + 1 <= f1)%nat -> (2 * len s + 1 <= f2)%nat ->
     parseValue f1 s = parseValue f2 s)
  /\ (forall f2 s, (2 * len s + 2 <= f1)%nat -> (2 * len s + 2 <= f2)%nat ->
     parseElements f1 s = parseElements f2 s)
  /\ (forall f2 s, (2 * len s + 2 <= f1)%nat -> (2 * len s + 2 <= f2)%nat ->
     parseMembers f1 s = parseMembers f2 s).
Proof.
  induction f1 as [|f1 (IHv & IHe & IHm)]; [repeat split; intros; lia|].
  split; [|split]; intros [|f2] s H1 H2; try lia; simpl.
  - destruct s as [|c s]; [done|].
    repeat first
      [ reflexivity
      | rewrite (IHe f2) by len_facts
      | rewrite (IHm f2) by len_facts
      | case_match ].
  - rewrite (IHv f2) by len_facts.
    repeat first
      [ reflexivity
      | rewrite (IHe f2) by len_facts
      | case_match ].
  - repeat first
      [ reflexivity
      | rewrite (IHv f2) by len_facts
      | rewrite (IHm f2) by len_facts
      | case_match ].
Qed.


(** More fuel than [parse] gives changes nothing: [parse] fails only on a
    text the grammar rejects. *)
Lemma parse_fuel_enough (text : string) (k : nat) :
  parseValue (2 * len text + 2 + k) (skipWs text)
  = parseValue (2 * len text + 2) (skipWs text).
Proof.
  pose proof (skipWs_length text).
  apply (proj1 (parsers_fuel _)); lia.
Qed.

End JSONFacts.

(** ** The loop of [calculateScore] *)

Section ScoreFacts.

Variable ans : gmap Z string.

(** The loop only adds to the counters: a run from [c] is [c] plus the run
    from zero. *)
Lemma loopBody_shift (c : Counters) (q : Question) :
  loopBody ans c q =
  let d := loopBody ans noCounts q in
  mkCounters (cMcqCorrect c + cMcqCorrect d) (cMcqWrong c + cMcqWrong d)
    (cTitaCorrect c + cTitaCorrect d) (cTotalAnswered c + cTotalAnswered d).
Proof.
  unfold loopBody. destruct c as [a b t n]; simpl.
  destruct (isAnswered (ans !! qid q)); simpl.
  - destruct (qtype q), (isCorrect _ _); simpl; f_equal; lia.
  - f_equal; lia.
Qed.

Lemma fold_loopBody_shift (qs : list Question) (c : Counters) :
  fold_left (loopBody ans) qs c =
  let d := fold_left (loopBody ans) qs noCounts in
  mkCounters (cMcqCorrect c + cMcqCorrect d) (cMcqWrong c + cMcqWrong d)
    (cTitaCorrect c + cTitaCorrect d) (cTotalAnswered c + cTotalAnswered d).
Proof.
  revert c. induction qs as [|q qs IH]; intros c; simpl.
  - destruct c; simpl; f_equal; lia.
  - rewrite IH, (IH (loopBody ans noCounts q)), (loopBody_shift c q).
    simpl. f_equal; lia.
Qed.

(** The counters of a list with [q] in it are those of the list without
    [q], plus the counters of [q] alone. *)
Lemma fold_loopBody_insert (pre post : list Question) (q : Question) :
  fold_left (loopBody ans) (pre ++ q :: post) noCounts =
  let r := fold_left (loopBody ans) (pre ++ post) noCounts in
  let d := loopBody ans noCounts q in
  mkCounters (cMcqCorrect r + cMcqCorrect d) (cMcqWrong r + cMcqWrong d)
    (cTitaCorrect r + cTitaCorrect d) (cTotalAnswered r + cTotalAnswered d).
Proof.
  rewrite !fold_left_app. simpl.
  set (p := fold_left (loopBody ans) pre noCounts).
  rewrite (fold_loopBody_shift post (loopBody ans p q)).
  rewrite (fold_loopBody_shift post p).
  rewrite (loopBody_shift p q). simpl. f_equal; lia.
Qed.

End ScoreFacts.

(** ** Scoring *)

Section Scoring.

(** What one answered question adds, read off the score of the set
    without it. *)
Lemma calculateScore_insert (a : Attempt) (qSet : QuestionSet)
    (pre post : list Question) (q : Question) :
  questions qSet = pre ++ q :: post ->
  let d := loopBody (answers a) noCounts q in
  let s := calculateScore a qSet in
  let s0 := calculateScore a (without qSet pre post) in
  mcqCorrect s = mcqCorrect s0 + cMcqCorrect d
  /\ mcqWrong s = mcqWrong s0 + cMcqWrong d
  /\ titaCorrect s = titaCorrect s0 + cTitaCorrect d
  /\ totalAnswered s = totalAnswered s0 + cTotalAnswered d
  /\ raw s = raw s0
             + cMcqCorrect d * correct (mcq (marking (meta qSet)))
             + cMcqWrong d * wrong (mcq (marking (meta qSet)))
             + cTitaCorrect d * correct (tita (marking (meta qSet))).
Proof.
  intros Hq. unfold calculateScore, without. simpl. rewrite Hq.
  rewrite fold_loopBody_insert. simpl. repeat split; lia.
Qed.

(** C1, as the code has it. A question with a null [answerKey] and an
    answer whose trimmed text is not empty is counted in [totalAnswered]
    and is never counted as correct ([mcqCorrect] and [titaCorrect] are as
    without it). For a TITA question [mcqWrong] and [raw] are as without it
    too; for an MCQ question it is counted in [mcqWrong] and [raw] moves by
    [marking.mcq.wrong]. *)
Theorem null_key_answered_contribution (a : Attempt) (qSet : QuestionSet)
    (pre post : list Question) (q : Question) :
  questions qSet = pre ++ q :: post ->
  answerKey q = None ->
  isAnswered (answers a !! qid q) = true ->
  let s := calculateScore a qSet in
  let s0 := calculateScore a (without qSet pre post) in
  totalAnswered s = totalAnswered s0 + 1
  /\ mcqCorrect s = mcqCorrect s0
  /\ titaCorrect s = titaCorrect s0
  /\ match qtype q with
     | TITA => mcqWrong s = mcqWrong s0 /\ raw s = raw s0
     | MCQ => mcqWrong s = mcqWrong s0 + 1
              /\ raw s = raw s0 + wrong (mcq (marking (meta qSet)))
     end.
Proof.
  intros Hq Hkey Hans.
  destruct (calculateScore_insert a qSet pre post q Hq)
    as (Hc & Hw & Ht & Hn & Hr).
  revert Hc Hw Ht Hn Hr. unfold loopBody. rewrite Hans, Hkey. simpl.
  destruct (qtype q); simpl; intros; repeat split; lia.
Qed.

Lemma null_key_answered_contribution_witness :
  let q3 := question 3 MCQ None in
  let a := attemptOf {[ 3 := "A"%string ]} ∅ in
  let qSet := examOf catMarking [q3] in
  questions qSet = [] ++ q3 :: []
  /\ answerKey q3 = None
  /\ isAnswered (answers a !! qid q3) = true
  /\ totalAnswered (calculateScore a qSet)
     = totalAnswered (calculateScore a (without qSet [] [])) + 1
  /\ mcqCorrect (calculateScore a qSet)
     = mcqCorrect (calculateScore a (without qSet [] []))
  /\ titaCorrect (calculateScore a qSet)
     = titaCorrect (calculateScore a (without qSet [] []))
  /\ mcqWrong (calculateScore a qSet)
     = mcqWrong (calculateScore a (without qSet [] [])) + 1
  /\ raw (calculateScore a qSet)
     = raw (calculateScore a (without qSet [] [])) + -1.
Proof.
  intros q3 a qSet.
  split; [reflexivity|]. split; [reflexivity|].
  split; [vm_compute; reflexivity|].
  apply (null_key_answered_contribution a qSet [] [] q3);
    [reflexivity | reflexivity | vm_compute; reflexivity].
Defined.

(** C1 fails on the code: the scenario of the specification, an MCQ
    question with a null key answered "A", is scored as a wrong MCQ answer
    and costs a mark. *)
Lemma null_key_mcq_is_penalised :
  let a := attemptOf {[ 3 := "A"%string ]} ∅ in
  let qSet := examOf catMarking [question 3 MCQ None] in
  calculateScore a qSet = mkScore (-1) 0 1 0 1
  /\ mcqWrong (calculateScore a qSet) <> mcqWrong (calculateScore a (without qSet [] []))
  /\ raw (calculateScore a qSet) <> raw (calculateScore a (without qSet [] [])).
Proof. vm_compute. repeat split; discriminate. Qed.

(** C2, as the code has it. For an answered question with a key, the
    question is counted as correct exactly when the trimmed, lower-cased
    answer equals the lower-cased key; the key is compared as it is, without
    trimming. White space around the answer changes nothing in the score. *)
Theorem correct_iff_trimmed_answer_matches_key (a : Attempt) (qSet : QuestionSet)
    (pre post : list Question) (q : Question) (userAnswer key : string) :
  questions qSet = pre ++ q :: post ->
  answers a !! qid q = Some userAnswer ->
  isAnswered (Some userAnswer) = true ->
  answerKey q = Some key ->
  let s := calculateScore a qSet in
  let s0 := calculateScore a (without qSet pre post) in
  (mcqCorrect s + titaCorrect s = mcqCorrect s0 + titaCorrect s0 + 1
   <-> toLowerCase (trim userAnswer) = toLowerCase key)
  /\ (isCorrect userAnswer (answerKey q) = true
      <-> toLowerCase (trim userAnswer) = toLowerCase key)
  /\ forall w1 w2 : string,
       allWhiteSpace w1 = true -> allWhiteSpace w2 = true ->
       calculateScore
         (withAnswers a (<[qid q := w1 +:+ userAnswer +:+ w2]> (answers a))) qSet
       = s.
Proof.
  intros Hq Hans Hansd Hkey s s0.
  destruct (calculateScore_insert a qSet pre post q Hq)
    as (Hc & _ & Ht & _ & _).
  fold s s0 in Hc, Ht. revert Hc Ht.
  unfold loopBody. rewrite Hans, Hansd, Hkey. simpl.
  rewrite <- String.eqb_eq.
  split; [|split].
  - destruct (qtype q), (String.eqb _ _); simpl in *; split; intros; try done; lia.
  - done.
  - intros w1 w2 H1 H2. subst s. unfold calculateScore, withAnswers. simpl.
    set (ans' := <[qid q := w1 +:+ userAnswer +:+ w2]> (answers a)).
    assert (Hbody : forall c x, loopBody ans' c x = loopBody (answers a) c x).
    { intros c x. unfold loopBody, ans'.
      destruct (decide (qid q = qid x)) as [He|Hne].
      - rewrite <- He, lookup_insert_eq, Hans. simpl.
        unfold isAnswered in Hansd. apply andb_true_iff in Hansd as [Htr Hne].
        rewrite (truthy_pad w1 userAnswer w2 Htr), Htr.
        rewrite (trim_pad w1 userAnswer w2 H1 H2), Hne. simpl.
        unfold isCorrect. rewrite (trim_pad w1 userAnswer w2 H1 H2). done.
      - by rewrite lookup_insert_ne. }
    assert (Hfold : forall l c,
      fold_left (loopBody ans') l c = fold_left (loopBody (answers a)) l c).
    { induction l as [|x l IH]; intros c; simpl; [done|].
      by rewrite Hbody, IH. }
    by rewrite Hfold.
Qed.

End Scoring.

Section ScoringScenarios.

Lemma correct_iff_trimmed_answer_matches_key_witness :
  let q := question 1 MCQ (Some "B"%string) in
  let a := attemptOf {[ 1 := "  b "%string ]} ∅ in
  let qSet := examOf catMarking [q] in
  questions qSet = [] ++ q :: []
  /\ answers a !! qid q = Some "  b "%string
  /\ isAnswered (Some "  b "%string) = true
  /\ answerKey q = Some "B"%string
  /\ (mcqCorrect (calculateScore a qSet) + titaCorrect (calculateScore a qSet)
      = mcqCorrect (calculateScore a (without qSet [] []))
        + titaCorrect (calculateScore a (without qSet [] [])) + 1
      <-> toLowerCase (trim "  b ") = toLowerCase "B")
  /\ (isCorrect "  b " (answerKey q) = true
      <-> toLowerCase (trim "  b ") = toLowerCase "B")
  /\ forall w1 w2 : string,
       allWhiteSpace w1 = true -> allWhiteSpace w2 = true ->
       calculateScore
         (withAnswers a (<[qid q := w1 +:+ "  b " +:+ w2]> (answers a))) qSet
       = calculateScore a qSet.
Proof.
  intros q a qSet.
  split; [reflexivity|]. split; [vm_compute; reflexivity|].
  split; [vm_compute; reflexivity|]. split; [reflexivity|].
  apply (correct_iff_trimmed_answer_matches_key a qSet [] [] q "  b " "B");
    [reflexivity | vm_compute; reflexivity | vm_compute; reflexivity | reflexivity].
Defined.

(** C2 fails on the code: the key is not trimmed. With the key " B" the
    answer "B" has the same trimmed, lower-cased text as the key and is
    scored as wrong. *)
Lemma untrimmed_key_is_not_matched :
  let q := question 1 MCQ (Some " B"%string) in
  let a := attemptOf {[ 1 := "B"%string ]} ∅ in
  toLowerCase (trim "B") = toLowerCase (trim " B")
  /\ isAnswered (answers a !! qid q) = true
  /\ isCorrect "B" (answerKey q) = false
  /\ calculateScore a (examOf catMarking [q]) = mkScore (-1) 0 1 0 1.
Proof. vm_compute. repeat split. Qed.

(** C5. The two-question scenario: an MCQ question answered with its key
    and a TITA question answered wrongly score 3, with one correct MCQ
    answer, no wrong counter and two answered questions. The wrong TITA
    answer moves nothing but [totalAnswered]. *)
Theorem scenario_mcq_right_tita_wrong :
  let q1 := question 1 MCQ (Some "B"%string) in
  let q2 := question 2 TITA (Some "42"%string) in
  let a := attemptOf {[ 1 := "B"%string; 2 := "43"%string ]} ∅ in
  calculateScore a (examOf catMarking [q1; q2]) = mkScore 3 1 0 0 2
  /\ calculateScore a (examOf catMarking [q1]) = mkScore 3 1 0 0 1.
Proof. vm_compute. split; reflexivity. Qed.

(** C9. Two marking schemes that differ only in [tita.wrong] give the same
    score, for every attempt and question set. *)
Theorem tita_wrong_is_never_read (a : Attempt) (qSet : QuestionSet)
    (m1 m2 : MarkingScheme) :
  mcq m1 = mcq m2 ->
  correct (tita m1) = correct (tita m2) ->
  calculateScore a (withMarking qSet m1) = calculateScore a (withMarking qSet m2).
Proof.
  intros Hm Ht. unfold calculateScore, withMarking. simpl.
  by rewrite Hm, Ht.
Qed.

Lemma tita_wrong_is_never_read_witness :
  let m1 := mkMarking (mkMarks 3 (-1)) (mkMarks 3 0) in
  let m2 := mkMarking (mkMarks 3 (-1)) (mkMarks 3 (-2)) in
  let a := attemptOf {[ 1 := "B"%string; 2 := "43"%string ]} ∅ in
  let qSet := examOf m1 [question 1 MCQ (Some "B"%string);
                         question 2 TITA (Some "42"%string)] in
  mcq m1 = mcq m2
  /\ correct (tita m1) = correct (tita m2)
  /\ calculateScore a (withMarking qSet m1) = calculateScore a (withMarking qSet m2).
Proof.
  intros m1 m2 a qSet.
  split; [reflexivity|]. split; [reflexivity|].
  apply (tita_wrong_is_never_read a qSet m1 m2); reflexivity.
Defined.

End ScoringScenarios.

(** ** The status of a question *)

Section Statuses.

(** Questions the loop passes over can be left out of the list. *)
Lemma fold_loopBody_skip (ans : gmap Z string) (keep : Question -> bool)
    (l : list Question) (c : Counters) :
  (forall q c', keep q = false -> loopBody ans c' q = c') ->
  fold_left (loopBody ans) l c = fold_left (loopBody ans) (List.filter keep l) c.
Proof.
  intros H. revert c. induction l as [|x l IH]; intros c; simpl; [done|].
  destruct (keep x) eqn:Hk; simpl.
  - apply IH.
  - rewrite (H x c Hk). apply IH.
Qed.

(** C10. An answer made of white space only, such as " ", is an answer for
    the status of the question: [handleAnswerChange] makes the status
    [Answered], or [AnsweredAndMarked] when the question carried the review
    mark. For [calculateScore] the same question is not answered: the loop
    passes over it without touching a counter, and the score is the score
    of the question set without the questions of that qid. *)
Theorem blank_answer_is_answered_but_not_scored (v : string) (a : Attempt) (id : Z)
    (qSet : QuestionSet) :
  allWhiteSpace v = true ->
  v <> EmptyString ->
  exists a' : Attempt,
    handleAnswerChange id v (Some a) = Some a'
    /\ statuses a' !! id
       = Some (if Table.isMarked (statuses a !! id) then AnsweredAndMarked else Answered)
    /\ isAnswered (answers a' !! id) = false
    /\ (forall c q, qid q = id -> loopBody (answers a') c q = c)
    /\ calculateScore a' qSet
       = calculateScore a'
           (mkQuestionSet (meta qSet)
              (List.filter (fun q => negb (qid q =? id)) (questions qSet))).
Proof.
  intros Hws Hne.
  assert (Htr : truthy v = true) by (by destruct v).
  eexists. split.
  { unfold handleAnswerChange. rewrite Htr. reflexivity. }
  simpl. rewrite !lookup_insert_eq.
  assert (Hun : isAnswered (Some v) = false).
  { simpl. by rewrite (trim_all_ws v Hws), andb_false_r. }
  assert (Hbody : forall c q, qid q = id ->
            loopBody (<[id:=v]> (answers a)) c q = c).
  { intros c q <-. unfold loopBody. by rewrite lookup_insert_eq, Hun. }
  repeat split.
  - destruct (statuses a !! id) as [[]|]; done.
  - done.
  - done.
  - unfold calculateScore. simpl.
    rewrite <- (fold_loopBody_skip _ (fun q => negb (qid q =? id))); [done|].
    intros q c' Hq. apply Hbody. apply negb_false_iff in Hq. lia.
Qed.

Lemma blank_answer_is_answered_but_not_scored_witness :
  let a := attemptOf ∅ {[ 1 := NotAnswered ]} in
  let qSet := examOf catMarking [question 1 MCQ (Some "B"%string)] in
  allWhiteSpace " " = true
  /\ " "%string <> EmptyString
  /\ exists a' : Attempt,
      handleAnswerChange 1 " " (Some a) = Some a'
      /\ statuses a' !! 1
         = Some (if Table.isMarked (statuses a !! 1) then AnsweredAndMarked else Answered)
      /\ isAnswered (answers a' !! 1) = false
      /\ (forall c q, qid q = 1 -> loopBody (answers a') c q = c)
      /\ calculateScore a' qSet
         = calculateScore a'
             (mkQuestionSet (meta qSet)
                (List.filter (fun q => negb (qid q =? 1)) (questions qSet))).
Proof.
  intros a qSet.
  split; [reflexivity|]. split; [discriminate|].
  apply (blank_answer_is_answered_but_not_scored " " a 1 qSet);
    [reflexivity | discriminate].
Defined.

(** One call of [handleMarkForReview] changes the status of the question
    on display as the table says, and nothing else. *)
Lemma handleMarkForReview_status (cq : Question) (a : Attempt) (s : QuestionStatus) :
  statuses a !! qid cq = Some s ->
  handleMarkForReview (Some cq) a
  = Some (withStatuses a
            (<[qid cq := Table.toggleMark s (hasAnswer (answers a !! qid cq))]>
               (statuses a))).
Proof.
  intros Hs. unfold handleMarkForReview, updateStatus. rewrite Hs.
  destruct s, (hasAnswer (answers a !! qid cq)); reflexivity.
Qed.

(** C7, as the code has it. Each call of [handleMarkForReview] follows the
    [ToggleMark] row of the table. For an unanswered question that does not
    carry the review mark (its status is neither [MarkedForReview] nor
    [AnsweredAndMarked]), two calls in succession leave it [NotAnswered];
    for every unanswered question two calls never leave it [NotVisited]. *)
Theorem toggle_mark_twice (cq : Question) (a : Attempt) (s : QuestionStatus) :
  statuses a !! qid cq = Some s ->
  let answered := hasAnswer (answers a !! qid cq) in
  exists a1 a2 : Attempt,
    handleMarkForReview (Some cq) a = Some a1
    /\ handleMarkForReview (Some cq) a1 = Some a2
    /\ answers a1 = answers a /\ answers a2 = answers a
    /\ statuses a1 !! qid cq = Some (Table.toggleMark s answered)
    /\ statuses a2 !! qid cq
       = Some (Table.toggleMark (Table.toggleMark s answered) answered)
    /\ (answered = false -> Table.isMarked (Some s) = false ->
        statuses a2 !! qid cq = Some NotAnswered)
    /\ (answered = false -> statuses a2 !! qid cq <> Some NotVisited).
Proof.
  intros Hs answered.
  set (s1 := Table.toggleMark s answered).
  set (a1 := withStatuses a (<[qid cq := s1]> (statuses a))).
  assert (H1 : handleMarkForReview (Some cq) a = Some a1)
    by (by apply handleMarkForReview_status).
  assert (Hs1 : statuses a1 !! qid cq = Some s1)
    by (unfold a1; simpl; by rewrite lookup_insert_eq).
  pose proof (handleMarkForReview_status cq a1 s1 Hs1) as H2.
  change (answers a1) with (answers a) in H2. fold answered in H2.
  eexists a1, _. split; [exact H1|]. split; [exact H2|].
  simpl. rewrite !lookup_insert_eq.
  repeat split; subst s1; destruct s; try done; intros ->; simpl; done.
Qed.

Lemma toggle_mark_twice_witness :
  let cq := question 1 MCQ (Some "B"%string) in
  let a := attemptOf ∅ {[ 1 := NotVisited ]} in
  statuses a !! qid cq = Some NotVisited
  /\ exists a1 a2 : Attempt,
      handleMarkForReview (Some cq) a = Some a1
      /\ handleMarkForReview (Some cq) a1 = Some a2
      /\ answers a1 = answers a /\ answers a2 = answers a
      /\ statuses a1 !! qid cq
         = Some (Table.toggleMark NotVisited (hasAnswer (answers a !! qid cq)))
      /\ statuses a2 !! qid cq
         = Some (Table.toggleMark
                   (Table.toggleMark NotVisited (hasAnswer (answers a !! qid cq)))
                   (hasAnswer (answers a !! qid cq)))
      /\ (hasAnswer (answers a !! qid cq) = false ->
          Table.isMarked (Some NotVisited) = false ->
          statuses a2 !! qid cq = Some NotAnswered)
      /\ (hasAnswer (answers a !! qid cq) = false ->
          statuses a2 !! qid cq <> Some NotVisited).
Proof.
  intros cq a. split; [vm_compute; reflexivity|].
  apply (toggle_mark_twice cq a NotVisited). vm_compute; reflexivity.
Defined.

(** C7 fails on the code for a question that already carries the mark: an
    unanswered question at [MarkedForReview] goes to [NotAnswered] and back
    to [MarkedForReview]. *)
Lemma toggle_twice_from_marked_stays_marked :
  let cq := question 1 MCQ (Some "B"%string) in
  let a := attemptOf ∅ {[ 1 := MarkedForReview ]} in
  hasAnswer (answers a !! qid cq) = false
  /\ exists a1 a2 : Attempt,
      handleMarkForReview (Some cq) a = Some a1
      /\ handleMarkForReview (Some cq) a1 = Some a2
      /\ statuses a1 !! qid cq = Some NotAnswered
      /\ statuses a2 !! qid cq = Some MarkedForReview
      /\ statuses a2 !! qid cq <> Some NotAnswered.
Proof.
  intros cq a. split; [vm_compute; reflexivity|].
  eexists _, _. split; [reflexivity|]. split; [reflexivity|].
  vm_compute. repeat split; discriminate.
Qed.

End Statuses.

(** ** Starting and resuming an attempt *)

Section Start.

Lemma lookup_fold_NotVisited (qs : list Question) (m : gmap Z QuestionStatus) (k : Z) :
  fold_left (fun st q => <[qid q := NotVisited]> st) qs m !! k
  = if decide (k ∈ qid <$> qs) then Some NotVisited else m !! k.
Proof.
  revert m. induction qs as [|q qs IH]; intros m.
  - simpl. destruct (decide (k ∈ qid <$> [])) as [H|H]; [by inversion H | done].
  - cbn [fold_left]. rewrite IH. rewrite fmap_cons.
    destruct (decide (k ∈ qid <$> qs)) as [Hin|Hout].
    + rewrite decide_True by (by apply elem_of_cons; right). done.
    + destruct (decide (k = qid q)) as [->|Hne].
      * rewrite lookup_insert_eq.
        rewrite decide_True by (by apply elem_of_cons; left). done.
      * rewrite lookup_insert_ne by done.
        rewrite decide_False; [done|].
        intros [?|?]%elem_of_cons; done.
Qed.

(** The status object of a fresh attempt: the first question is
    [NotAnswered], every other qid of the set is [NotVisited], and no other
    key is present. *)
Lemma lookup_initialStatuses (first : Question) (qs : list Question) (k : Z) :
  initialStatuses first qs !! k
  = if decide (k = qid first) then Some NotAnswered
    else if decide (k ∈ qid <$> qs) then Some NotVisited
    else None.
Proof.
  unfold initialStatuses. case_decide as H.
  - subst. by rewrite lookup_insert_eq.
  - rewrite lookup_insert_ne by done. by rewrite lookup_fold_NotVisited.
Qed.

(** The attempt [startExam] builds when it does not resume. *)
Lemma startExam_fresh (now : Z) (localStorage : gmap string string)
    (qSet : QuestionSet) (sid : string) (st : AppState)
    (first : Question) (rest : list Question) :
  questions qSet = first :: rest ->
  getItem localStorage ("attempt_" +:+ sid) = None
  \/ getItem localStorage ("attempt_" +:+ sid) = Some EmptyString ->
  startExam now localStorage qSet sid st
  = Returned
      (mkApp exam (sessionId st) (processingError st) (questionSet st)
         (Some (Built
            (mkAttempt sid "local_user"
               (mkTimerInfo now EXAM_DURATION_SECONDS EXAM_DURATION_SECONDS)
               ∅ (initialStatuses first (questions qSet)) inProgress None)))
         0).
Proof.
  intros Hq Hraw. unfold startExam. rewrite Hq.
  destruct Hraw as [-> | ->]; reflexivity.
Qed.

(** C3, as the code has it. With no saved blob (or an empty one) the
    attempt starts fresh: the first question [NotAnswered], every other qid
    [NotVisited]. A saved blob that is not JSON is not discarded: the
    [SyntaxError] of [JSON.parse] leaves [startExam], no attempt is set, and
    [handleFileUpload] goes back to the upload view with an error text. A
    saved blob that is JSON is stored as the attempt, whatever it holds. *)
Theorem startExam_saved_blob (now : Z) (localStorage : gmap string string)
    (qSet : QuestionSet) (sid : string) (st : AppState)
    (first : Question) (rest : list Question) :
  questions qSet = first :: rest ->
  let saved := getItem localStorage ("attempt_" +:+ sid) in
  (saved = None \/ saved = Some EmptyString ->
   exists a : Attempt,
     startExam now localStorage qSet sid st
     = Returned (mkApp exam (sessionId st) (processingError st)
                   (questionSet st) (Some (Built a)) 0)
     /\ status a = inProgress /\ score a = None /\ answers a = ∅
     /\ remainingSec (timer a) = EXAM_DURATION_SECONDS
     /\ forall k : Z,
          statuses a !! k
          = if decide (k = qid first) then Some NotAnswered
            else if decide (k ∈ qid <$> questions qSet) then Some NotVisited
            else None)
  /\ (forall text : string,
        saved = Some text -> text <> EmptyString -> JSON.parse text = None ->
        startExam now localStorage qSet sid st = Thrown SyntaxError
        /\ handleFileUpload now localStorage qSet sid st
           = mkApp upload (Some sid) (Some (AIParsingFailed SyntaxError))
               (Some qSet) (attempt st) (currentQuestionIndex st))
  /\ (forall (text : string) (j : json),
        saved = Some text -> text <> EmptyString -> JSON.parse text = Some j ->
        exists i : Z,
          startExam now localStorage qSet sid st
          = Returned (mkApp exam (sessionId st) (processingError st)
                        (questionSet st) (loadedAttempt j) i)).
Proof.
  intros Hq saved. split; [|split].
  - intros Hraw. eexists. split.
    { apply (startExam_fresh now localStorage qSet sid st first rest Hq Hraw). }
    simpl. repeat split. intros k. apply lookup_initialStatuses.
  - intros text Hs Hne Hp.
    assert (Hthrow : forall st', startExam now localStorage qSet sid st' = Thrown SyntaxError).
    { intros st'. unfold startExam. rewrite Hq. fold saved. rewrite Hs.
      destruct text; [done|]. by rewrite Hp. }
    split; [apply Hthrow|].
    unfold handleFileUpload. by rewrite Hthrow.
  - intros text j Hs Hne Hp. eexists.
    unfold startExam. rewrite Hq. fold saved. rewrite Hs.
    destruct text; [done|]. rewrite Hp. reflexivity.
Qed.

Lemma startExam_saved_blob_witness :
  let q1 := question 1 MCQ (Some "B"%string) in
  let q2 := question 2 TITA (Some "42"%string) in
  let qSet := examOf catMarking [q1; q2] in
  let localStorage : gmap string string := {[ "attempt_paper.pdf-1"%string := "{"%string ]} in
  let sid := "paper.pdf-1"%string in
  questions qSet = q1 :: [q2]
  /\ getItem localStorage ("attempt_" +:+ sid) = Some "{"%string
  /\ "{"%string <> EmptyString
  /\ JSON.parse "{" = None
  /\ startExam 0 localStorage qSet sid initialState = Thrown SyntaxError
  /\ handleFileUpload 0 localStorage qSet sid initialState
     = mkApp upload (Some sid) (Some (AIParsingFailed SyntaxError))
         (Some qSet) None 0.
Proof.
  intros q1 q2 qSet localStorage sid.
  assert (Hq : questions qSet = q1 :: [q2]) by reflexivity.
  assert (Hs : getItem localStorage ("attempt_" +:+ sid) = Some "{"%string)
    by (vm_compute; reflexivity).
  assert (Hne : "{"%string <> EmptyString) by discriminate.
  assert (Hp : JSON.parse "{" = None) by (vm_compute; reflexivity).
  split; [exact Hq|]. split; [exact Hs|]. split; [exact Hne|]. split; [exact Hp|].
  exact (proj1 (proj2 (startExam_saved_blob 0 localStorage qSet sid initialState
                         q1 [q2] Hq)) "{"%string Hs Hne Hp).
Defined.

(** C3 fails on the code for a malformed blob: with the text "{" under the
    key of the session, [startExam] throws instead of starting fresh, and
    [handleFileUpload] ends in the upload view with an error and without an
    attempt. A blob that is JSON but no attempt (the text "42") is not
    discarded either: it becomes the attempt. *)
Lemma malformed_blob_is_not_discarded :
  let q1 := question 1 MCQ (Some "B"%string) in
  let qSet := examOf catMarking [q1] in
  let sid := "paper.pdf-1"%string in
  let broken : gmap string string := {[ "attempt_paper.pdf-1"%string := "{"%string ]} in
  let number : gmap string string := {[ "attempt_paper.pdf-1"%string := "42"%string ]} in
  startExam 0 broken qSet sid initialState = Thrown SyntaxError
  /\ view (handleFileUpload 0 broken qSet sid initialState) = upload
  /\ processingError (handleFileUpload 0 broken qSet sid initialState)
     = Some (AIParsingFailed SyntaxError)
  /\ attempt (handleFileUpload 0 broken qSet sid initialState) = None
  /\ attempt (handleFileUpload 0 number qSet sid initialState)
     = Some (Loaded (JNumber "42")).
Proof. vm_compute. repeat split. Qed.

(** C4, as the code has it. [startExam] refuses the empty question set:
    it sets the error text, goes back to the upload view and leaves the
    attempt as it was. It does not look for duplicate qids: every non-empty
    question set starts, and with no saved blob a fresh attempt in progress
    is set and the exam view shown. *)
Theorem startExam_refuses_only_the_empty_set (now : Z)
    (localStorage : gmap string string) (qSet : QuestionSet) (sid : string)
    (st : AppState) :
  match questions qSet with
  | [] =>
      startExam now localStorage qSet sid st
      = Returned (mkApp upload (sessionId st) (Some NoQuestionsParsed)
                    (questionSet st) (attempt st) (currentQuestionIndex st))
  | first :: _ =>
      getItem localStorage ("attempt_" +:+ sid) = None ->
      exists a : Attempt,
        startExam now localStorage qSet sid st
        = Returned (mkApp exam (sessionId st) (processingError st)
                      (questionSet st) (Some (Built a)) 0)
        /\ status a = inProgress
        /\ dom (statuses a) = (list_to_set (qid <$> questions qSet) : gset Z)
  end.
Proof.
  destruct (questions qSet) as [|first rest] eqn:Hq.
  - unfold startExam. by rewrite Hq.
  - intros Hraw. eexists. split.
    { rewrite (startExam_fresh now localStorage qSet sid st first rest Hq);
        [reflexivity | by left]. }
    split; [reflexivity|].
    apply set_eq. intros k. rewrite elem_of_dom. cbn [statuses].
    rewrite lookup_initialStatuses, elem_of_list_to_set, Hq.
    repeat case_decide; subst; split; intros Hk; try done; try (by eexists).
    rewrite fmap_cons. by left.
Qed.

Lemma startExam_refuses_only_the_empty_set_witness :
  let q1 := question 1 MCQ (Some "B"%string) in
  let q2 := question 2 TITA (Some "42"%string) in
  let qSet := examOf catMarking [q1; q2] in
  getItem (∅ : gmap string string) ("attempt_" +:+ "paper.pdf-1") = None
  /\ (exists a : Attempt,
        startExam 0 ∅ qSet "paper.pdf-1" initialState
        = Returned (mkApp exam None None None (Some (Built a)) 0)
        /\ status a = inProgress
        /\ dom (statuses a) = (list_to_set (qid <$> questions qSet) : gset Z))
  /\ startExam 0 ∅ (examOf catMarking []) "paper.pdf-1" initialState
     = Returned (mkApp upload None (Some NoQuestionsParsed) None None 0).
Proof.
  intros q1 q2 qSet. split; [reflexivity|]. split.
  - apply (startExam_refuses_only_the_empty_set 0 ∅ qSet "paper.pdf-1" initialState).
    reflexivity.
  - apply (startExam_refuses_only_the_empty_set 0 ∅ (examOf catMarking [])
             "paper.pdf-1" initialState).
Defined.

(** C4 fails on the code for a duplicate qid: two questions with qid 1
    start an attempt in progress, in the exam view, with a single status
    entry. *)
Lemma duplicate_qid_starts_an_attempt :
  let qSet := examOf catMarking [question 1 MCQ (Some "B"%string);
                                 question 1 TITA (Some "42"%string)] in
  startExam 0 ∅ qSet "paper.pdf-1" initialState
  = Returned
      (mkApp exam None None None
         (Some (Built
            (mkAttempt "paper.pdf-1" "local_user" (mkTimerInfo 0 10800 10800)
               ∅ {[ 1 := NotAnswered ]} inProgress None)))
         0).
Proof. vm_compute. reflexivity. Qed.

End Start.

(** ** The timer *)

Section TimerFacts.

(** A second render in a row changes nothing: running the effect once per
    state change is enough. *)
Lemma commit_idem (st : TimerState) : commit (commit st) = commit st.
Proof.
  destruct st as [r run ref n]. unfold commit, cleanup, effect.
  destruct run, ref, r; reflexivity.
Qed.

(** A running timer with time left has its interval live after a render. *)
Lemma commit_running (r : Z) (ref : IntervalRef) (n : nat) :
  0 < r -> commit (mkTimer r true ref n) = mkTimer r true RefLive n.
Proof.
  intros Hr. unfold commit, cleanup, effect.
  destruct ref; simpl; destruct (0 <? r) eqn:E; try done; lia.
Qed.

(** A tick with more than a second left takes one second off. *)
Lemma tick_running (r : Z) (n : nat) :
  1 < r -> tick (mkTimer r true RefLive n) = mkTimer (r - 1) true RefLive n.
Proof.
  intros Hr. unfold tick, intervalCallback. simpl.
  destruct (r <=? 1) eqn:E; [lia|]. apply commit_running. lia.
Qed.

(** The tick at one second (or less) ends the timer: zero left, paused,
    interval gone, one more call of [onEnd]. *)
Lemma tick_last (r : Z) (n : nat) :
  r <= 1 -> tick (mkTimer r true RefLive n) = mkTimer 0 false RefNull (S n).
Proof.
  intros Hr. unfold tick, intervalCallback. simpl.
  destruct (r <=? 1) eqn:E; [|lia]. reflexivity.
Qed.

(** Without a live interval nothing ticks. *)
Lemma ticks_stopped (k : nat) (st : TimerState) :
  timerRef st <> RefLive -> ticks k st = st.
Proof.
  intros H. induction k as [|k IH]; [done|].
  unfold ticks in *. simpl. rewrite IH. unfold tick.
  destruct (timerRef st); done.
Qed.

Lemma ticks_add (j k : nat) (st : TimerState) :
  ticks (j + k) st = ticks k (ticks j st).
Proof.
  unfold ticks. revert st. induction k as [|k IH]; intros st.
  - by rewrite Nat.add_0_r.
  - rewrite Nat.add_succ_r. simpl. by rewrite IH.
Qed.

(** [k] ticks of a running timer with more than [k] seconds left. *)
Lemma ticks_running (k : nat) (r : Z) (n : nat) :
  Z.of_nat k < r ->
  ticks k (mkTimer r true RefLive n) = mkTimer (r - Z.of_nat k) true RefLive n.
Proof.
  induction k as [|k IH]; intros Hr.
  - simpl. f_equal. lia.
  - unfold ticks in *. simpl. rewrite IH by lia.
    rewrite tick_running by lia. f_equal. lia.
Qed.

(** A running timer with [r >= 1] seconds left ends at the [r]-th tick, not
    before, and stays ended. *)
Lemma ticks_countdown (r : nat) (n : nat) (k : nat) :
  (1 <= r)%nat ->
  ticks k (mkTimer (Z.of_nat r) true RefLive n)
  = if (k <? r)%nat then mkTimer (Z.of_nat r - Z.of_nat k) true RefLive n
    else mkTimer 0 false RefNull (S n).
Proof.
  intros Hr. destruct (k <? r)%nat eqn:E.
  - apply Nat.ltb_lt in E. apply ticks_running. lia.
  - apply Nat.ltb_ge in E.
    replace k with ((r - 1) + (1 + (k - r)))%nat by lia.
    rewrite ticks_add, ticks_running by lia.
    rewrite ticks_add. unfold ticks at 2. simpl.
    rewrite tick_last by lia. by apply ticks_stopped.
Qed.

Ltac hook_unfold :=
  unfold Hook.step, Hook.togglePause, Hook.setTime, Hook.start, Hook.pause,
    Hook.tick, Hook.fire, Hook.commit, Hook.effect, Hook.cleanup,
    Hook.intervalCallback, Hook.endTimer, Hook.setInterval, Hook.clearInterval,
    Hook.abstract, Hook.refState, Hook.isLive, Hook.singleInterval,
    Events.timerStep, ExamView.togglePause, setTime, start, pause, tick,
    commit, effect, cleanup, intervalCallback, endTimer in *.

(** With at most the interval of the ref alive, the flag of [Timer] tells
    what is alive. *)
Lemma hook_single_cases (st : Hook.HookState) :
  Hook.singleInterval st ->
  (Hook.intervals st = [] /\ Hook.refState st <> RefLive)
  \/ (exists id, Hook.intervals st = [id] /\ Hook.timerRef st = Some id
                 /\ Hook.refState st = RefLive).
Proof.
  destruct st as [r run ref ivs nid n]. unfold Hook.singleInterval, Hook.refState,
    Hook.isLive. simpl. intros [->|(id & -> & ->)].
  - left. split; [done|]. by destruct ref.
  - right. exists id. simpl. by rewrite Nat.eqb_refl.
Qed.

(** A render of the hook is a render of [Timer], and leaves at most the
    interval of the ref alive. This is where the clean-up of the effect
    counts: it stops the interval of the previous run before the effect
    creates the next one. *)
Lemma hook_commit_refines (st : Hook.HookState) :
  Hook.singleInterval st ->
  Hook.singleInterval (Hook.commit st)
  /\ Hook.abstract (Hook.commit st) = commit (Hook.abstract st).
Proof.
  destruct st as [r run ref ivs nid n]. intros Hs.
  hook_unfold. simpl in *.
  destruct Hs as [->|(id & -> & ->)]; simpl.
  - destruct ref as [id|]; simpl;
      destruct run, (0 <? r) eqn:E1, (r <=? 0) eqn:E2; simpl;
      rewrite ?Nat.eqb_refl; simpl; split; try reflexivity;
      first [by left | right; by eexists].
  - rewrite !Nat.eqb_refl. simpl.
    destruct run, (0 <? r) eqn:E1, (r <=? 0) eqn:E2; simpl;
      rewrite ?Nat.eqb_refl; simpl; split; try reflexivity;
      first [by left | right; by eexists].
Qed.

Lemma hook_callback_refines (st : Hook.HookState) :
  Hook.singleInterval st ->
  Hook.singleInterval (Hook.intervalCallback st)
  /\ Hook.abstract (Hook.intervalCallback st) = intervalCallback (Hook.abstract st).
Proof.
  destruct st as [r run ref ivs nid n]. intros Hs.
  hook_unfold. simpl in *.
  destruct Hs as [->|(id & -> & ->)]; simpl.
  - destruct ref as [id|]; simpl; destruct (r <=? 1); simpl;
      split; try reflexivity; by left.
  - rewrite !Nat.eqb_refl. simpl. destruct (r <=? 1); simpl;
      rewrite ?Nat.eqb_refl; simpl; split; try reflexivity;
      first [by left | right; by eexists].
Qed.

(** A second going by in the hook is a tick of [Timer]: with one live
    interval at most, one callback at most runs. *)
Lemma hook_tick_refines (st : Hook.HookState) :
  Hook.singleInterval st ->
  Hook.singleInterval (Hook.tick st)
  /\ Hook.abstract (Hook.tick st) = tick (Hook.abstract st).
Proof.
  intros Hs. destruct (hook_single_cases st Hs) as [[Hi Hr]|(id & Hi & Href & Hr)].
  - unfold Hook.tick. rewrite Hi. simpl. split; [done|].
    unfold tick, Hook.abstract. simpl. by destruct (Hook.refState st).
  - unfold Hook.tick. rewrite Hi. simpl. unfold Hook.fire, Hook.isLive.
    rewrite Hi. simpl. rewrite Nat.eqb_refl. simpl.
    destruct (hook_callback_refines st Hs) as [Hs1 Ha1].
    destruct (hook_commit_refines _ Hs1) as [Hs2 Ha2].
    split; [done|]. rewrite Ha2, Ha1.
    unfold tick. unfold Hook.abstract at 2. simpl. by rewrite Hr.
Qed.

Lemma hook_step_refines (st : Hook.HookState) (e : Events.TimerEvent) :
  Hook.singleInterval st ->
  Hook.singleInterval (Hook.step st e)
  /\ Hook.abstract (Hook.step st e) = Events.timerStep (Hook.abstract st) e.
Proof.
  intros Hs.
  assert (Hset : forall r run,
    Hook.singleInterval (Hook.mkHook r run (Hook.timerRef st) (Hook.intervals st)
                           (Hook.nextId st) (Hook.onEndCalls st))).
  { intros r run. exact Hs. }
  assert (Habs : forall r run,
    Hook.abstract (Hook.mkHook r run (Hook.timerRef st) (Hook.intervals st)
                     (Hook.nextId st) (Hook.onEndCalls st))
    = mkTimer r run (timerRef (Hook.abstract st)) (onEndCalls (Hook.abstract st))).
  { reflexivity. }
  destruct e as [| | | |v]; simpl.
  - by apply hook_tick_refines.
  - unfold Hook.start, start.
    destruct (hook_commit_refines _ (Hset (Hook.remainingTime st) true)) as [H1 H2].
    split; [done|]. by rewrite H2, Habs.
  - unfold Hook.pause, pause.
    destruct (hook_commit_refines _ (Hset (Hook.remainingTime st) false)) as [H1 H2].
    split; [done|]. by rewrite H2, Habs.
  - unfold Hook.togglePause, ExamView.togglePause, Hook.start, Hook.pause, start, pause.
    change (isRunning (Hook.abstract st)) with (Hook.isRunning st).
    destruct (Hook.isRunning st).
    + destruct (hook_commit_refines _ (Hset (Hook.remainingTime st) false)) as [H1 H2].
      split; [done|]. by rewrite H2, Habs.
    + destruct (hook_commit_refines _ (Hset (Hook.remainingTime st) true)) as [H1 H2].
      split; [done|]. by rewrite H2, Habs.
  - unfold Hook.setTime, setTime.
    change (isRunning (Hook.abstract st)) with (Hook.isRunning st).
    destruct (Hook.isRunning st) eqn:E; simpl; [done|].
    destruct (hook_commit_refines _ (Hset v false)) as [H1 H2].
    split; [done|]. by rewrite H2, Habs.
Qed.

(** The hook refines [Timer]: after any events from the mount, the hook has
    at most the interval of its ref alive, and its state is the state of
    [Timer] after the same events. *)
Lemma hook_run_refines (d : Z) (es : list Events.TimerEvent) :
  Hook.singleInterval (Hook.run es (Hook.useTimer d))
  /\ Hook.abstract (Hook.run es (Hook.useTimer d))
     = Events.timerRun es (useTimer d).
Proof.
  unfold Hook.run, Events.timerRun.
  induction es as [|e es [IH1 IH2]] using rev_ind.
  - split; [by left|reflexivity].
  - rewrite !fold_left_app. simpl.
    destruct (hook_step_refines _ e IH1) as [H1 H2].
    split; [done|]. by rewrite H2, IH2.
Qed.

Lemma hook_ticks_refines (k : nat) (st : Hook.HookState) :
  Hook.singleInterval st ->
  Hook.singleInterval (Hook.ticks k st)
  /\ Hook.abstract (Hook.ticks k st) = ticks k (Hook.abstract st).
Proof.
  intros Hs. unfold Hook.ticks, ticks. induction k as [|k [IH1 IH2]]; [done|].
  simpl. destruct (hook_tick_refines _ IH1) as [H1 H2].
  split; [done|]. by rewrite H2, IH2.
Qed.

(** The hook just started with time left: running, one interval. *)
Lemma hook_start_shape (d : Z) :
  0 < d ->
  Hook.singleInterval (Hook.start (Hook.useTimer d))
  /\ Hook.abstract (Hook.start (Hook.useTimer d)) = mkTimer d true RefLive 0.
Proof.
  intros Hd. hook_unfold. simpl.
  assert (E : (0 <? d) = true) by lia. rewrite E. simpl.
  split; [right; by eexists|reflexivity].
Qed.

(** What the state of [Timer] says about the fields and the intervals of the
    hook state it stands for. *)
Lemma hook_read_back (st : Hook.HookState) (r : Z) (run : bool)
    (ref : IntervalRef) (n : nat) :
  Hook.singleInterval st ->
  Hook.abstract st = mkTimer r run ref n ->
  Hook.remainingTime st = r /\ Hook.isRunning st = run /\ Hook.onEndCalls st = n
  /\ (ref = RefLive -> length (Hook.intervals st) = 1%nat)
  /\ (ref = RefNull -> Hook.intervals st = [] /\ Hook.timerRef st = None).
Proof.
  intros Hs Ha. unfold Hook.abstract in Ha. injection Ha as <- <- Href <-.
  split; [done|]. split; [done|]. split; [done|].
  destruct (hook_single_cases st Hs) as [[Hi Hr]|(id & Hi & Ht & Hr)].
  - split; [congruence|]. intros ->. split; [done|].
    unfold Hook.refState in Href. destruct (Hook.timerRef st); [|done].
    by destruct (Hook.isLive _ _).
  - split; [by rewrite Hi|]. congruence.
Qed.

(** C6. The hook started with five seconds left, with every interval it
    creates taken into account: during the first four seconds it runs
    with exactly one live interval, loses one second per second and does
    not call [onEnd]; the fifth second brings it to zero, pauses it, stops
    the interval and calls [onEnd] once; after any number of further
    seconds it is still at zero, paused, without an interval, with that one
    call. *)
Theorem five_ticks_end_the_timer_once :
  let st0 := Hook.start (Hook.useTimer 5) in
  (forall k : nat, (k < 5)%nat ->
     let st := Hook.ticks k st0 in
     Hook.remainingTime st = 5 - Z.of_nat k
     /\ Hook.isRunning st = true
     /\ Hook.onEndCalls st = 0%nat
     /\ length (Hook.intervals st) = 1%nat)
  /\ (forall k : nat,
        let st := Hook.ticks (5 + k) st0 in
        Hook.remainingTime st = 0
        /\ Hook.isRunning st = false
        /\ Hook.onEndCalls st = 1%nat
        /\ Hook.intervals st = []
        /\ Hook.timerRef st = None).
Proof.
  intros st0.
  destruct (hook_start_shape 5 ltac:(lia)) as [Hs0 Ha0]. fold st0 in Hs0, Ha0.
  assert (Hk : forall k,
    Hook.singleInterval (Hook.ticks k st0)
    /\ Hook.abstract (Hook.ticks k st0)
       = if (k <? 5)%nat then mkTimer (5 - Z.of_nat k) true RefLive 0
         else mkTimer 0 false RefNull 1).
  { intros k. destruct (hook_ticks_refines k st0 Hs0) as [H1 H2].
    split; [done|]. rewrite H2, Ha0. apply (ticks_countdown 5 0 k). lia. }
  split.
  - intros k Hlt st. destruct (Hk k) as [H1 H2].
    apply Nat.ltb_lt in Hlt. rewrite Hlt in H2.
    destruct (hook_read_back _ _ _ _ _ H1 H2) as (Hr & Hrun & Hn & Hlive & _).
    repeat split; try done. by apply Hlive.
  - intros k st. destruct (Hk (5 + k)%nat) as [H1 H2].
    assert (E : (5 + k <? 5)%nat = false) by (apply Nat.ltb_ge; lia).
    rewrite E in H2.
    destruct (hook_read_back _ _ _ _ _ H1 H2) as (Hr & Hrun & Hn & _ & Hnull).
    destruct (Hnull eq_refl). repeat split; done.
Qed.

(** C8. [setTime] called while the timer runs changes nothing; called while
    it is paused it sets the remaining time, and the timer stays paused
    with [onEnd] not called. *)
Theorem setTime_applies_only_when_paused (v : Z) (st : TimerState) :
  (isRunning st = true -> setTime v st = st)
  /\ (isRunning st = false ->
      remainingTime (setTime v st) = v
      /\ isRunning (setTime v st) = false
      /\ onEndCalls (setTime v st) = onEndCalls st).
Proof.
  unfold setTime. split; intros Hrun; rewrite Hrun; simpl; [done|].
  unfold commit, cleanup, effect. destruct (timerRef st); simpl; rewrite andb_false_r; done.
Qed.

Lemma setTime_applies_only_when_paused_witness :
  let running := ticks 2 (start (useTimer 5)) in
  let paused := pause running in
  isRunning running = true
  /\ setTime 120 running = running
  /\ isRunning paused = false
  /\ remainingTime (setTime 120 paused) = 120
  /\ isRunning (setTime 120 paused) = false
  /\ onEndCalls (setTime 120 paused) = onEndCalls paused.
Proof.
  intros running paused.
  split; [reflexivity|].
  split; [apply (proj1 (setTime_applies_only_when_paused 120 running)); reflexivity|].
  split; [reflexivity|].
  apply (proj2 (setTime_applies_only_when_paused 120 paused)); reflexivity.
Defined.

End TimerFacts.

(** * Further properties of the code *)

(** ** [calculateScore] as a count *)

Section ScoreCounts.

Lemma filter_length_snoc (p : Question -> bool) (qs : list Question) (q : Question) :
  Z.of_nat (length (List.filter p (qs ++ [q])))
  = Z.of_nat (length (List.filter p qs)) + (if p q then 1 else 0).
Proof.
  rewrite List.filter_app, length_app. simpl.
  destruct (p q); simpl; lia.
Qed.

Lemma fold_loopBody_counts (ans : gmap Z string) (qs : list Question) :
  let answered q := isAnswered (ans !! qid q) in
  let right q := isCorrect (default EmptyString (ans !! qid q)) (answerKey q) in
  let isMCQ q := bool_decide (qtype q = MCQ) in
  let count p := Z.of_nat (length (List.filter p qs)) in
  fold_left (loopBody ans) qs noCounts
  = mkCounters
      (count (fun q => answered q && isMCQ q && right q))
      (count (fun q => answered q && isMCQ q && negb (right q)))
      (count (fun q => answered q && negb (isMCQ q) && right q))
      (count answered).
Proof.
  induction qs as [|q qs IH] using rev_ind; [reflexivity|].
  cbv zeta in *. rewrite fold_left_app, IH, !filter_length_snoc. simpl.
  unfold loopBody. simpl.
  destruct (isAnswered (ans !! qid q)); simpl.
  - destruct (qtype q), (isCorrect _ _); simpl; f_equal; lia.
  - f_equal; lia.
Qed.

End ScoreCounts.

Section ScoreMore.

Lemma score_fields_are_counts (a : Attempt) (qSet : QuestionSet) :
  let answered q := isAnswered (answers a !! qid q) in
  let right q := isCorrect (default EmptyString (answers a !! qid q)) (answerKey q) in
  let isMCQ q := bool_decide (qtype q = MCQ) in
  let count p := Z.of_nat (length (List.filter p (questions qSet))) in
  let s := calculateScore a qSet in
  totalAnswered s = count answered
  /\ mcqCorrect s = count (fun q => answered q && isMCQ q && right q)
  /\ mcqWrong s = count (fun q => answered q && isMCQ q && negb (right q))
  /\ titaCorrect s = count (fun q => answered q && negb (isMCQ q) && right q).
Proof.
  cbv zeta. unfold calculateScore. simpl.
  rewrite (fold_loopBody_counts (answers a) (questions qSet)). simpl.
  repeat split; reflexivity.
Qed.

(** X1. Each field of the score is a count over the question list: the
    answered questions, the answered MCQ questions judged correct, the
    answered MCQ questions judged incorrect, and the answered TITA questions
    judged correct. A question that occurs twice is counted twice. *)
Theorem calculateScore_counts (a : Attempt) (qSet : QuestionSet) :
  let answered q := isAnswered (answers a !! qid q) in
  let right q := isCorrect (default EmptyString (answers a !! qid q)) (answerKey q) in
  let isMCQ q := bool_decide (qtype q = MCQ) in
  let count p := Z.of_nat (length (List.filter p (questions qSet))) in
  let s := calculateScore a qSet in
  totalAnswered s = count answered
  /\ mcqCorrect s = count (fun q => answered q && isMCQ q && right q)
  /\ mcqWrong s = count (fun q => answered q && isMCQ q && negb (right q))
  /\ titaCorrect s = count (fun q => answered q && negb (isMCQ q) && right q).
Proof. apply score_fields_are_counts. Qed.

Lemma fold_loopBody_bounds (ans : gmap Z string) (qs : list Question) :
  let c := fold_left (loopBody ans) qs noCounts in
  0 <= cMcqCorrect c /\ 0 <= cMcqWrong c /\ 0 <= cTitaCorrect c
  /\ cMcqCorrect c + cMcqWrong c + cTitaCorrect c <= cTotalAnswered c
  /\ cTotalAnswered c <= Z.of_nat (length qs).
Proof.
  induction qs as [|q qs IH] using rev_ind; [simpl; lia|].
  rewrite fold_left_app, length_app. simpl in *.
  destruct (fold_left (loopBody ans) qs noCounts) as [mc mw tc n]. simpl in *.
  unfold loopBody. simpl.
  destruct (isAnswered (ans !! qid q)); simpl; [|lia].
  destruct (qtype q), (isCorrect _ _); simpl; lia.
Qed.

(** X2. The counters are never negative, the three buckets together never
    exceed [totalAnswered], and [totalAnswered] never exceeds the number of
    questions. *)
Theorem calculateScore_bounds (a : Attempt) (qSet : QuestionSet) :
  let s := calculateScore a qSet in
  0 <= mcqCorrect s /\ 0 <= mcqWrong s /\ 0 <= titaCorrect s
  /\ mcqCorrect s + mcqWrong s + titaCorrect s <= totalAnswered s
  /\ totalAnswered s <= Z.of_nat (length (questions qSet)).
Proof. apply fold_loopBody_bounds. Qed.

(** X3. With marks for a correct answer that are not negative and a mark for a
    wrong MCQ answer that is not positive, [raw] lies between the penalty
    on every question and the better of the two correct marks on every
    question. *)
Theorem calculateScore_raw_bounds (a : Attempt) (qSet : QuestionSet) :
  let m := marking (meta qSet) in
  let n := Z.of_nat (length (questions qSet)) in
  0 <= correct (mcq m) -> 0 <= correct (tita m) -> wrong (mcq m) <= 0 ->
  wrong (mcq m) * n <= raw (calculateScore a qSet)
  <= Z.max (correct (mcq m)) (correct (tita m)) * n.
Proof.
  intros m n Hc Ht Hw.
  destruct (fold_loopBody_bounds (answers a) (questions qSet))
    as (H1 & H2 & H3 & H4 & H5).
  unfold calculateScore. simpl. fold m n.
  set (c := fold_left (loopBody (answers a)) (questions qSet) noCounts) in *.
  set (M := Z.max (correct (mcq m)) (correct (tita m))).
  assert (correct (mcq m) <= M) by lia.
  assert (correct (tita m) <= M) by lia.
  assert (0 <= M) by lia.
  split.
  - assert (wrong (mcq m) * n <= cMcqWrong c * wrong (mcq m)) by nia.
    nia.
  - assert (cMcqCorrect c * correct (mcq m) <= cMcqCorrect c * M) by nia.
    assert (cTitaCorrect c * correct (tita m) <= cTitaCorrect c * M) by nia.
    assert (cMcqWrong c * wrong (mcq m) <= 0) by nia.
    nia.
Qed.

Lemma calculateScore_raw_bounds_witness :
  let a := attemptOf {[ 1 := "B"%string; 2 := "43"%string ]} ∅ in
  let qSet := examOf catMarking [question 1 MCQ (Some "B"%string);
                                 question 2 TITA (Some "42"%string)] in
  0 <= 3 /\ 0 <= 3 /\ -1 <= 0
  /\ -1 * 2 <= raw (calculateScore a qSet) <= Z.max 3 3 * 2.
Proof.
  intros a qSet. split; [lia|]. split; [lia|]. split; [lia|].
  apply (calculateScore_raw_bounds a qSet); simpl; lia.
Defined.

End ScoreMore.

Section ScoreOrder.

Lemma loopBody_comm (ans : gmap Z string) (c : Counters) (x y : Question) :
  loopBody ans (loopBody ans c x) y = loopBody ans (loopBody ans c y) x.
Proof.
  rewrite (loopBody_shift ans (loopBody ans c x) y), (loopBody_shift ans c x).
  rewrite (loopBody_shift ans (loopBody ans c y) x), (loopBody_shift ans c y).
  simpl. f_equal; lia.
Qed.

Lemma fold_loopBody_perm (ans : gmap Z string) (l l' : list Question) :
  l ≡ₚ l' -> forall c, fold_left (loopBody ans) l c = fold_left (loopBody ans) l' c.
Proof.
  induction 1 as [|x l l' _ IH|x y l|l l' l'' _ IH1 _ IH2]; intros c; simpl.
  - reflexivity.
  - apply IH.
  - by rewrite loopBody_comm.
  - by rewrite IH1, IH2.
Qed.

(** X4. The order of the questions does not matter: a question set with the
    same questions in another order gets the same score. *)
Theorem calculateScore_order_irrelevant (a : Attempt) (m : Meta)
    (qs qs' : list Question) :
  qs ≡ₚ qs' ->
  calculateScore a (mkQuestionSet m qs) = calculateScore a (mkQuestionSet m qs').
Proof.
  intros Hp. unfold calculateScore. simpl.
  by rewrite (fold_loopBody_perm (answers a) qs qs' Hp).
Qed.

Lemma calculateScore_order_irrelevant_witness :
  let q1 := question 1 MCQ (Some "B"%string) in
  let q2 := question 2 TITA (Some "42"%string) in
  let q3 := question 3 MCQ None in
  let a := attemptOf {[ 1 := "B"%string; 2 := "42"%string; 3 := "A"%string ]} ∅ in
  let m := mkMeta "CAT" 3 0 catMarking in
  [q1; q2; q3] ≡ₚ [q3; q1; q2]
  /\ calculateScore a (mkQuestionSet m [q1; q2; q3])
     = calculateScore a (mkQuestionSet m [q3; q1; q2]).
Proof.
  intros q1 q2 q3 a m.
  assert (Hp : [q1; q2; q3] ≡ₚ [q3; q1; q2]).
  { change [q3; q1; q2] with ([q3] ++ [q1; q2]).
    change [q1; q2; q3] with ([q1; q2] ++ [q3]). apply Permutation_app_comm. }
  split; [exact Hp|].
  exact (calculateScore_order_irrelevant a m _ _ Hp).
Defined.

Lemma fold_loopBody_agree (ans1 ans2 : gmap Z string) (l : list Question) (c : Counters) :
  (forall q, q ∈ l -> ans1 !! qid q = ans2 !! qid q) ->
  fold_left (loopBody ans1) l c = fold_left (loopBody ans2) l c.
Proof.
  revert c. induction l as [|x l IH]; intros c H; simpl; [done|].
  rewrite IH.
  - f_equal. unfold loopBody. rewrite (H x); [done|]. left.
  - intros q Hq. apply H. by right.
Qed.

(** X5. Only the answers stored under the qids of the question set are read:
    two attempts whose answers agree there get the same score, whatever
    else their answers objects hold. *)
Theorem calculateScore_reads_only_set_qids (a1 a2 : Attempt) (qSet : QuestionSet) :
  (forall q, q ∈ questions qSet -> answers a1 !! qid q = answers a2 !! qid q) ->
  calculateScore a1 qSet = calculateScore a2 qSet.
Proof.
  intros H. unfold calculateScore.
  by rewrite (fold_loopBody_agree (answers a1) (answers a2) _ _ H).
Qed.

Lemma calculateScore_reads_only_set_qids_witness :
  let q1 := question 1 MCQ (Some "B"%string) in
  let a1 := attemptOf {[ 1 := "B"%string ]} ∅ in
  let a2 := attemptOf {[ 1 := "B"%string; 7 := "stray"%string ]} {[ 1 := Answered ]} in
  let qSet := examOf catMarking [q1] in
  (forall q, q ∈ questions qSet -> answers a1 !! qid q = answers a2 !! qid q)
  /\ calculateScore a1 qSet = calculateScore a2 qSet.
Proof.
  intros q1 a1 a2 qSet.
  assert (H : forall q, q ∈ questions qSet -> answers a1 !! qid q = answers a2 !! qid q).
  { intros q Hq. apply list_elem_of_singleton in Hq. subst q. vm_compute. reflexivity. }
  split; [exact H|].
  exact (calculateScore_reads_only_set_qids a1 a2 qSet H).
Defined.

(** When no question of the set has an answer (an answers object that is
    empty, holds only blank strings, or holds answers for other qids; or an
    empty question list), every field of the score is 0. *)
Theorem calculateScore_nothing_answered (a : Attempt) (qSet : QuestionSet) :
  (forall q, q ∈ questions qSet -> isAnswered (answers a !! qid q) = false) ->
  calculateScore a qSet = mkScore 0 0 0 0 0.
Proof.
  intros H. unfold calculateScore.
  assert (Hf : forall l c, (forall q, q ∈ l -> isAnswered (answers a !! qid q) = false) ->
               fold_left (loopBody (answers a)) l c = c).
  { induction l as [|x l IH]; intros c Hl; simpl; [done|].
    rewrite IH by (intros q Hq; apply Hl; by right).
    unfold loopBody. rewrite (Hl x); [done|left]. }
  rewrite (Hf _ _ H). reflexivity.
Qed.

Lemma calculateScore_nothing_answered_witness :
  let a := attemptOf {[ 1 := "  "%string; 9 := "B"%string ]} ∅ in
  let qSet := examOf catMarking [question 1 MCQ (Some "B"%string);
                                 question 2 TITA (Some "42"%string)] in
  (forall q, q ∈ questions qSet -> isAnswered (answers a !! qid q) = false)
  /\ calculateScore a qSet = mkScore 0 0 0 0 0.
Proof.
  intros a qSet.
  assert (H : forall q, q ∈ questions qSet -> isAnswered (answers a !! qid q) = false).
  { intros q Hq. simpl in Hq.
    apply elem_of_cons in Hq as [->|Hq]; [vm_compute; reflexivity|].
    apply list_elem_of_singleton in Hq. subst q. vm_compute. reflexivity. }
  split; [exact H|].
  exact (calculateScore_nothing_answered a qSet H).
Defined.

End ScoreOrder.

(** ** The results view against the score *)

Section ResultsFacts.

Lemma toLowerCase_empty (s : string) :
  toLowerCase s = EmptyString -> s = EmptyString.
Proof. by destruct s. Qed.

(** An answered question without a usable key (null or empty) is never
    judged correct. *)
Lemma isCorrect_without_key (q : Question) (userAnswer : string) :
  Results.hasKey q = false ->
  isAnswered (Some userAnswer) = true ->
  isCorrect userAnswer (answerKey q) = false.
Proof.
  unfold Results.hasKey, isCorrect, isAnswered.
  destruct (answerKey q) as [k|]; [|done].
  destruct k; [|done]. intros _ [_ Hne]%andb_true_iff.
  apply negb_true_iff in Hne. simpl.
  destruct (toLowerCase (trim userAnswer)) eqn:E; [|done].
  apply toLowerCase_empty in E. rewrite E in Hne. done.
Qed.

(** What [ResultItem] shows for a question is what [calculateScore] decided
    for it. *)
Lemma resultItem_agrees (q : Question) (userAnswer : option string) :
  Results.resultItem q userAnswer
  = if isAnswered userAnswer
    then if isCorrect (default EmptyString userAnswer) (answerKey q)
         then Results.ShownCorrect else Results.ShownWrong
    else Results.ShownUnanswered.
Proof.
  unfold Results.resultItem. destruct userAnswer as [a|]; [|done]. simpl.
  destruct (truthy a && negb (String.eqb (trim a) EmptyString)) eqn:Ha; [|done].
  destruct (Results.hasKey q) eqn:Hk; simpl.
  - unfold Results.hasKey in Hk. destruct (answerKey q); [done|done].
  - by rewrite (isCorrect_without_key q a Hk Ha).
Qed.

Lemma filter_length_ext (p1 p2 : Question -> bool) (qs : list Question) :
  (forall q, q ∈ qs -> p1 q = p2 q) ->
  length (List.filter p1 qs) = length (List.filter p2 qs).
Proof.
  induction qs as [|x qs IH]; intros H; simpl; [done|].
  rewrite (H x) by left.
  assert (IH' : length (List.filter p1 qs) = length (List.filter p2 qs))
    by (apply IH; intros q Hq; apply H; by right).
  destruct (p2 x); simpl; by rewrite IH'.
Qed.

(** X6. The answer review and the score agree: the number of items shown as
    correct is [mcqCorrect + titaCorrect], the number of MCQ items shown as
    wrong is [mcqWrong], and the number of items not shown as unanswered is
    [totalAnswered]. *)
Theorem review_agrees_with_score (a : Attempt) (qSet : QuestionSet) :
  let shown q := Results.resultItem q (answers a !! qid q) in
  let count p := Z.of_nat (length (List.filter p (questions qSet))) in
  let s := calculateScore a qSet in
  count (fun q => bool_decide (shown q = Results.ShownCorrect))
  = mcqCorrect s + titaCorrect s
  /\ count (fun q => bool_decide (shown q = Results.ShownWrong)
                     && bool_decide (qtype q = MCQ))
     = mcqWrong s
  /\ count (fun q => negb (bool_decide (shown q = Results.ShownUnanswered)))
     = totalAnswered s.
Proof.
  cbv zeta. destruct (score_fields_are_counts a qSet) as (Hn & Hc & Hw & Ht).
  cbv zeta in Hn, Hc, Hw, Ht. rewrite Hn, Hc, Hw, Ht. clear Hn Hc Hw Ht.
  set (qs := questions qSet). clearbody qs.
  induction qs as [|q qs (IH1 & IH2 & IH3)]; [done|].
  simpl. rewrite resultItem_agrees.
  destruct (isAnswered (answers a !! qid q)); simpl;
    [destruct (qtype q), (isCorrect _ _); simpl|];
    repeat split; lia.
Qed.

Lemma filter_length_none (p : Question -> bool) (qs : list Question) :
  (forall q, q ∈ qs -> p q = false) -> length (List.filter p qs) = 0%nat.
Proof.
  induction qs as [|x qs IH]; intros H; simpl; [done|].
  rewrite (H x) by left. apply IH. intros q Hq. apply H. by right.
Qed.

(** X7. When no question has an answer key ([hasAnswerKey] is false and the
    answer review is hidden), nothing is ever judged correct: the score is
    the number of answered MCQ questions times the mark for a wrong MCQ
    answer. *)
Theorem score_without_answer_keys (a : Attempt) (qSet : QuestionSet) :
  Results.hasAnswerKey qSet = false ->
  let s := calculateScore a qSet in
  mcqCorrect s = 0 /\ titaCorrect s = 0
  /\ raw s = mcqWrong s * wrong (mcq (marking (meta qSet)))
  /\ mcqWrong s
     = Z.of_nat (length (List.filter
                           (fun q => isAnswered (answers a !! qid q)
                                     && bool_decide (qtype q = MCQ))
                           (questions qSet))).
Proof.
  intros Hk s.
  assert (Hno : forall q, q ∈ questions qSet -> Results.hasKey q = false).
  { intros q Hq. unfold Results.hasAnswerKey in Hk.
    destruct (Results.hasKey q) eqn:E; [|done].
    assert (existsb Results.hasKey (questions qSet) = true); [|congruence].
    apply existsb_exists. exists q. split; [by apply list_elem_of_In|done]. }
  assert (Hwrong : forall q, q ∈ questions qSet ->
            isAnswered (answers a !! qid q) = true ->
            isCorrect (default EmptyString (answers a !! qid q)) (answerKey q) = false).
  { intros q Hq Ha. destruct (answers a !! qid q) as [u|] eqn:E; [|done].
    simpl. by apply isCorrect_without_key; [apply Hno|]. }
  destruct (score_fields_are_counts a qSet) as (_ & Hc & Hw & Ht).
  cbv zeta in Hc, Hw, Ht. fold s in Hc, Hw, Ht.
  assert (Hc0 : mcqCorrect s = 0).
  { rewrite Hc, filter_length_none; [done|]. intros q Hq.
    destruct (isAnswered (answers a !! qid q)) eqn:Ha; [|done].
    rewrite (Hwrong q Hq Ha). by rewrite andb_false_r. }
  assert (Ht0 : titaCorrect s = 0).
  { rewrite Ht, filter_length_none; [done|]. intros q Hq.
    destruct (isAnswered (answers a !! qid q)) eqn:Ha; [|done].
    rewrite (Hwrong q Hq Ha). by rewrite andb_false_r. }
  split; [exact Hc0|]. split; [exact Ht0|]. split.
  - change (raw s) with (mcqCorrect s * correct (mcq (marking (meta qSet)))
                         + mcqWrong s * wrong (mcq (marking (meta qSet)))
                         + titaCorrect s * correct (tita (marking (meta qSet)))).
    rewrite Hc0, Ht0. lia.
  - rewrite Hw. f_equal. apply filter_length_ext. intros q Hq.
    destruct (isAnswered (answers a !! qid q)) eqn:Ha; [|done].
    rewrite (Hwrong q Hq Ha). simpl. by rewrite andb_true_r.
Qed.

Lemma score_without_answer_keys_witness :
  let a := attemptOf {[ 1 := "A"%string; 2 := "17"%string ]} ∅ in
  let qSet := examOf catMarking [question 1 MCQ None; question 2 TITA None;
                                 question 3 MCQ (Some EmptyString)] in
  Results.hasAnswerKey qSet = false
  /\ mcqCorrect (calculateScore a qSet) = 0
  /\ titaCorrect (calculateScore a qSet) = 0
  /\ raw (calculateScore a qSet) = mcqWrong (calculateScore a qSet) * -1
  /\ mcqWrong (calculateScore a qSet)
     = Z.of_nat (length (List.filter
                           (fun q => isAnswered (answers a !! qid q)
                                     && bool_decide (qtype q = MCQ))
                           (questions qSet))).
Proof.
  intros a qSet. split; [reflexivity|].
  apply (score_without_answer_keys a qSet). reflexivity.
Defined.

End ResultsFacts.

(** ** The count of the submit dialog against the score *)

Section DialogCount.

Lemma filter_length_perm {A : Type} (p : A -> bool) (l l' : list A) :
  l ≡ₚ l' -> length (List.filter p l) = length (List.filter p l').
Proof.
  induction 1 as [|x l l' _ IH|x y l|l l' l'' _ IH1 _ IH2]; simpl.
  - reflexivity.
  - destruct (p x); simpl; by rewrite IH.
  - destruct (p x), (p y); reflexivity.
  - by rewrite IH1.
Qed.

Lemma count_qid_nodup (qs : list Question) (k : Z) :
  NoDup (qid <$> qs) -> k ∈ qid <$> qs ->
  length (List.filter (fun q => qid q =? k) qs) = 1%nat.
Proof.
  induction qs as [|x qs IH]; simpl; intros Hnd Hin.
  - by inversion Hin.
  - apply NoDup_cons in Hnd as [Hx Hnd].
    destruct (qid x =? k) eqn:E.
    + apply Z.eqb_eq in E. subst k. simpl. f_equal.
      apply filter_length_none. intros q Hq.
      apply Z.eqb_neq. intros Heq. apply Hx. rewrite <- Heq.
      by apply list_elem_of_fmap_2.
    + apply Z.eqb_neq in E. apply IH; [done|].
      apply elem_of_cons in Hin as [->|Hin]; done.
Qed.

Lemma count_answered_insert (m : gmap Z string) (k : Z) (v : string)
    (qs : list Question) :
  m !! k = None ->
  length (List.filter (fun q => isAnswered (<[k:=v]> m !! qid q)) qs)
  = (length (List.filter (fun q => isAnswered (m !! qid q)) qs)
     + if isAnswered (Some v)
       then length (List.filter (fun q => (qid q =? k)%Z) qs)
       else 0)%nat.
Proof.
  intros Hk.
  assert (Hb : forall b : bool,
    length (List.filter (fun q => if (qid q =? k)%Z then b else isAnswered (m !! qid q)) qs)
    = (length (List.filter (fun q => isAnswered (m !! qid q)) qs)
       + if b then length (List.filter (fun q => (qid q =? k)%Z) qs) else 0)%nat).
  { intros b. induction qs as [|x qs IH]; cbn [List.filter length].
    - destruct b; reflexivity.
    - destruct (qid x =? k)%Z eqn:E.
      + apply Z.eqb_eq in E. rewrite E, Hk.
        change (isAnswered None) with false.
        destruct b; cbn [length]; rewrite IH; lia.
      + destruct (isAnswered (m !! qid x)); cbn [length]; rewrite IH;
          destruct b; lia. }
  rewrite <- (Hb (isAnswered (Some v))). apply filter_length_ext.
  intros q _. destruct (qid q =? k)%Z eqn:E.
  - apply Z.eqb_eq in E. by rewrite E, lookup_insert_eq.
  - apply Z.eqb_neq in E. by rewrite lookup_insert_ne.
Qed.

Lemma answered_values_count (ans : gmap Z string) (qs : list Question) :
  NoDup (qid <$> qs) ->
  (forall k v, ans !! k = Some v -> isAnswered (Some v) = true -> k ∈ qid <$> qs) ->
  length (List.filter (fun a => isAnswered (Some a)) (snd <$> map_to_list ans))
  = length (List.filter (fun q => isAnswered (ans !! qid q)) qs).
Proof.
  intros Hnd. induction ans as [|k v m Hk IH] using map_ind; intros Hsub.
  - rewrite map_to_list_empty. simpl. symmetry. apply filter_length_none.
    intros q _. by rewrite lookup_empty.
  - rewrite (filter_length_perm _ _ ((k, v).2 :: (snd <$> map_to_list m))).
    2:{ rewrite <- fmap_cons. apply fmap_Permutation. by apply map_to_list_insert. }
    rewrite count_answered_insert by done. cbn [snd List.filter].
    rewrite <- IH.
    2:{ intros k' v' Hl Ha. apply (Hsub k' v'); [|done].
        rewrite lookup_insert_ne; [done|]. intros ->. congruence. }
    destruct (isAnswered (Some v)) eqn:Ha; cbn [length]; [|lia].
    rewrite count_qid_nodup; [lia|done|].
    apply (Hsub k v); [by rewrite lookup_insert_eq|done].
Qed.

(** X8. The number of answered questions that the submit dialog announces is
    the [totalAnswered] of the score, when the qids of the set are distinct
    and every answer that counts belongs to a question of the set. *)
Theorem dialog_count_is_totalAnswered (a : Attempt) (qSet : QuestionSet) :
  NoDup (qid <$> questions qSet) ->
  (forall k v, answers a !! k = Some v -> isAnswered (Some v) = true ->
               k ∈ qid <$> questions qSet) ->
  ExamView.answeredCount a = totalAnswered (calculateScore a qSet).
Proof.
  intros Hnd Hsub. destruct (score_fields_are_counts a qSet) as (Hn & _).
  cbv zeta in Hn. rewrite Hn. unfold ExamView.answeredCount. f_equal.
  by apply answered_values_count.
Qed.

Lemma dialog_count_is_totalAnswered_witness :
  let a := attemptOf {[ 1 := "B"%string; 2 := " "%string ]} ∅ in
  let qSet := examOf catMarking [question 1 MCQ (Some "B"%string);
                                 question 2 TITA (Some "42"%string)] in
  NoDup (qid <$> questions qSet)
  /\ (forall k v, answers a !! k = Some v -> isAnswered (Some v) = true ->
                  k ∈ qid <$> questions qSet)
  /\ ExamView.answeredCount a = totalAnswered (calculateScore a qSet).
Proof.
  intros a qSet.
  assert (Hnd : NoDup (qid <$> questions qSet)).
  { simpl. apply NoDup_cons. split; [|apply NoDup_singleton].
    intros H%list_elem_of_singleton. discriminate. }
  assert (Hsub : forall k v, answers a !! k = Some v -> isAnswered (Some v) = true ->
                 k ∈ qid <$> questions qSet).
  { intros k v Hl Ha. simpl.
    destruct (decide (k = 1)) as [->|H1]; [by left|].
    destruct (decide (k = 2)) as [->|H2]; [right; by left|].
    unfold a, attemptOf in Hl. cbn [answers] in Hl.
    rewrite lookup_insert_ne in Hl by done.
    by rewrite lookup_singleton_ne in Hl. }
  split; [exact Hnd|]. split; [exact Hsub|].
  exact (dialog_count_is_totalAnswered a qSet Hnd Hsub).
Defined.

End DialogCount.

(** ** The timer under any sequence of events *)

Section TimerRuns.

Import Events.

(** After a render the interval is live exactly when the timer runs, and
    then there is time left. *)
Lemma commit_shape (st : TimerState) :
  let st' := commit st in
  (isRunning st' = true -> 0 < remainingTime st' /\ timerRef st' = RefLive)
  /\ (timerRef st' = RefLive -> isRunning st' = true).
Proof.
  destruct st as [r run ref n]. unfold commit, cleanup, effect.
  destruct run, ref; simpl; destruct (0 <? r) eqn:E1; simpl;
    try (destruct (r <=? 0) eqn:E2; simpl);
    split; intros H; try done; split; try done; lia.
Qed.

Lemma timerStep_shape (st : TimerState) (e : TimerEvent) :
  ((isRunning st = true -> 0 < remainingTime st /\ timerRef st = RefLive)
   /\ (timerRef st = RefLive -> isRunning st = true)) ->
  let st' := timerStep st e in
  (isRunning st' = true -> 0 < remainingTime st' /\ timerRef st' = RefLive)
  /\ (timerRef st' = RefLive -> isRunning st' = true).
Proof.
  intros Hst. destruct e as [| | | |v]; simpl.
  - unfold tick. case_eq (timerRef st); intros E;
      [exact Hst|apply commit_shape|exact Hst].
  - apply commit_shape.
  - apply commit_shape.
  - unfold ExamView.togglePause. destruct (isRunning st); apply commit_shape.
  - unfold setTime. case_eq (isRunning st); intros E; simpl;
      [exact Hst|apply commit_shape].
Qed.

Lemma timerRun_shape (d : Z) (es : list TimerEvent) :
  let st := timerRun es (useTimer d) in
  (isRunning st = true -> 0 < remainingTime st /\ timerRef st = RefLive)
  /\ (timerRef st = RefLive -> isRunning st = true).
Proof.
  unfold timerRun. induction es as [|e es IH] using rev_ind.
  - simpl. split; intros H; done.
  - rewrite fold_left_app. simpl. by apply timerStep_shape.
Qed.

(** X9. In every state a timer can reach from its mount, the interval is live
    exactly when the timer runs, and a running timer has time left: a
    timer with no time left is always paused. *)
Theorem timer_running_has_time_left (d : Z) (es : list TimerEvent) :
  let st := timerRun es (useTimer d) in
  (isRunning st = true -> 0 < remainingTime st /\ timerRef st = RefLive)
  /\ (timerRef st = RefLive -> isRunning st = true).
Proof. apply timerRun_shape. Qed.

Lemma timerStep_nonneg (st : TimerState) (e : TimerEvent) :
  0 <= remainingTime st ->
  (forall v, e = SetTime v -> 0 <= v) ->
  0 <= remainingTime (timerStep st e).
Proof.
  intros Hr Hv. destruct st as [r run ref n]. simpl in Hr.
  destruct e as [| | | |v]; simpl.
  - unfold tick, intervalCallback, commit, cleanup, effect. simpl.
    destruct ref; simpl; try done.
    destruct (r <=? 1) eqn:E; simpl; [done|].
    destruct run; simpl; repeat (case_match; simpl); lia.
  - unfold start, commit, cleanup, effect. simpl.
    destruct ref; simpl; repeat (case_match; simpl); lia.
  - unfold pause, commit, cleanup, effect. simpl.
    destruct ref; simpl; repeat (case_match; simpl); lia.
  - unfold ExamView.togglePause, start, pause, commit, cleanup, effect. simpl.
    destruct run, ref; simpl; repeat (case_match; simpl); lia.
  - specialize (Hv v eq_refl).
    unfold setTime, commit, cleanup, effect. simpl.
    destruct run, ref; simpl; repeat (case_match; simpl); lia.
Qed.

(** X10. The remaining time never becomes negative: from a duration that is not
    negative, and with no negative value given to [setTime], it stays at
    0 or above whatever happens. *)
Theorem timer_never_negative (d : Z) (es : list TimerEvent) :
  0 <= d ->
  (forall v, SetTime v ∈ es -> 0 <= v) ->
  0 <= remainingTime (timerRun es (useTimer d)).
Proof.
  intros Hd. unfold timerRun. induction es as [|e es IH] using rev_ind; intros Hv.
  - exact Hd.
  - rewrite fold_left_app. simpl. apply timerStep_nonneg.
    + apply IH. intros v Hin. apply Hv. apply elem_of_app. by left.
    + intros v ->. apply Hv. apply elem_of_app. right. by left.
Qed.

Lemma timer_never_negative_witness :
  0 <= 3
  /\ (forall v, SetTime v ∈ [Start; Tick; Pause; SetTime 1; TogglePause; Tick; Tick] -> 0 <= v)
  /\ 0 <= remainingTime
            (timerRun [Start; Tick; Pause; SetTime 1; TogglePause; Tick; Tick] (useTimer 3)).
Proof.
  assert (Hv : forall v, SetTime v ∈ [Start; Tick; Pause; SetTime 1; TogglePause; Tick; Tick]
                         -> 0 <= v).
  { intros v Hin. repeat (apply elem_of_cons in Hin as [Hin|Hin]; [try discriminate|]).
    - injection Hin as ->. lia.
    - by inversion Hin. }
  split; [lia|]. split; [exact Hv|].
  apply (timer_never_negative 3 _); [lia|exact Hv].
Defined.

Lemma timerStep_effect (st : TimerState) (e : TimerEvent) :
  (timerRef st = RefLive -> isRunning st = true /\ 0 < remainingTime st) ->
  let st' := timerStep st e in
  ((forall v, e <> SetTime v) -> remainingTime st' <= remainingTime st)
  /\ (onEndCalls st' = onEndCalls st
      \/ onEndCalls st' = S (onEndCalls st)
         /\ remainingTime st' <= 0 /\ isRunning st' = false).
Proof.
  destruct st as [r run ref n]. simpl. intros Hlive.
  destruct e as [| | | |v]; simpl.
  - unfold tick, intervalCallback, commit, cleanup, effect. simpl.
    destruct ref; simpl; try (split; [lia|by left]).
    destruct (Hlive eq_refl) as [-> Hr].
    destruct (r <=? 1) eqn:E; simpl.
    + split; [lia|]. right. repeat split; lia.
    + assert (E' : (0 <? r - 1) = true) by lia. rewrite E'. simpl.
      split; [lia|by left].
  - unfold start, commit, cleanup, effect. simpl.
    destruct ref; simpl; destruct (0 <? r) eqn:E1; simpl;
      try (split; [lia|by left]);
      (assert (E2 : (r <=? 0) = true) by lia); rewrite E2; simpl;
      (split; [lia|right; repeat split; lia]).
  - unfold pause, commit, cleanup, effect. simpl.
    destruct ref; simpl; rewrite ?andb_false_r; simpl; (split; [lia|by left]).
  - unfold ExamView.togglePause, start, pause, commit, cleanup, effect. simpl.
    destruct run; simpl.
    + destruct ref; simpl; rewrite ?andb_false_r; simpl; (split; [lia|by left]).
    + destruct ref; simpl; destruct (0 <? r) eqn:E1; simpl;
        try (split; [lia|by left]);
        (assert (E2 : (r <=? 0) = true) by lia); rewrite E2; simpl;
        (split; [lia|right; repeat split; lia]).
  - unfold setTime, commit, cleanup, effect. simpl.
    destruct run; simpl; [split; [lia|by left]|].
    destruct ref; simpl; rewrite ?andb_false_r; simpl;
      (split; [intros H; by destruct (H v)|by left]).
Qed.

(** X11. [onEnd] is called only when the time is out: whatever happened before,
    an event either leaves the number of calls as it is, or adds one call
    and leaves a paused timer with no time left. *)
Theorem timer_onEnd_only_when_time_is_out (d : Z) (es : list TimerEvent)
    (e : TimerEvent) :
  let st := timerRun es (useTimer d) in
  let st' := timerStep st e in
  onEndCalls st' = onEndCalls st
  \/ onEndCalls st' = S (onEndCalls st)
     /\ remainingTime st' <= 0 /\ isRunning st' = false.
Proof.
  intros st st'.
  destruct (timerRun_shape d es) as [H1 H2]. fold st in H1, H2.
  apply (timerStep_effect st e). intros Hl. split; [by apply H2|].
  by apply H1, H2.
Qed.

(** X12. Without [setTime] the remaining time only goes down: after any further
    ticks, pauses and resumes it is at most what it was. *)
Theorem timer_never_gains_time (d : Z) (es1 es2 : list TimerEvent) :
  (forall v, SetTime v ∉ es2) ->
  remainingTime (timerRun (es1 ++ es2) (useTimer d))
  <= remainingTime (timerRun es1 (useTimer d)).
Proof.
  induction es2 as [|e es2 IH] using rev_ind; intros Hno.
  - rewrite app_nil_r. lia.
  - rewrite app_assoc. unfold timerRun in *. rewrite fold_left_app. simpl.
    destruct (timerRun_shape d (es1 ++ es2)) as [H1 H2].
    unfold timerRun in H1, H2.
    destruct (timerStep_effect (fold_left timerStep (es1 ++ es2) (useTimer d)) e)
      as [Hle _].
    { intros Hl. split; [by apply H2|]. by apply H1, H2. }
    etrans; [apply Hle|apply IH].
    + intros v ->. apply (Hno v). apply elem_of_app. right. by left.
    + intros v Hin. apply (Hno v). apply elem_of_app. by left.
Qed.

Lemma timer_never_gains_time_witness :
  (forall v, SetTime v ∉ [Tick; Pause; Tick; TogglePause; Tick])
  /\ remainingTime (timerRun ([Start; Tick] ++ [Tick; Pause; Tick; TogglePause; Tick])
                      (useTimer 9))
     <= remainingTime (timerRun [Start; Tick] (useTimer 9)).
Proof.
  assert (Hno : forall v, SetTime v ∉ [Tick; Pause; Tick; TogglePause; Tick]).
  { intros v Hin.
    repeat (apply elem_of_cons in Hin as [Hin|Hin]; [discriminate|]).
    by inversion Hin. }
  split; [exact Hno|].
  exact (timer_never_gains_time 9 [Start; Tick] _ Hno).
Defined.

End TimerRuns.

Section TimerControls.

(** X13. [pause] stops the countdown: the timer is paused with the time it had,
    [onEnd] is not called, and no number of seconds going by changes the
    paused timer. *)
Theorem pause_freezes_the_timer (st : TimerState) (k : nat) :
  isRunning (pause st) = false
  /\ remainingTime (pause st) = remainingTime st
  /\ onEndCalls (pause st) = onEndCalls st
  /\ ticks k (pause st) = pause st
  /\ pause (pause st) = pause st.
Proof.
  assert (Hp : pause st
               = mkTimer (remainingTime st) false
                   (match timerRef st with RefLive => RefCleared | r => r end)
                   (onEndCalls st)).
  { destruct st as [r run ref n]. unfold pause, commit, cleanup, effect. simpl.
    destruct ref; simpl; by rewrite andb_false_r. }
  split; [by rewrite Hp|]. split; [by rewrite Hp|]. split; [by rewrite Hp|].
  split.
  - apply ticks_stopped. rewrite Hp. simpl. by destruct (timerRef st).
  - rewrite Hp. unfold pause, commit, cleanup, effect. simpl.
    destruct (timerRef st); simpl; by rewrite andb_false_r.
Qed.

(** X14. Resuming a timer with no time left ends it again at once: it stays
    paused and [onEnd] is called one more time, on every such call. *)
Theorem start_without_time_calls_onEnd (st : TimerState) :
  remainingTime st <= 0 ->
  start st = mkTimer (remainingTime st) false RefNull (S (onEndCalls st)).
Proof.
  intros Hr. destruct st as [r run ref n]. simpl in Hr.
  unfold start, commit, cleanup, effect, endTimer. simpl.
  assert (E1 : (0 <? r) = false) by lia.
  assert (E2 : (r <=? 0) = true) by lia.
  destruct ref; simpl; by rewrite E1, E2.
Qed.

Lemma start_without_time_calls_onEnd_witness :
  let ended := ticks 5 (start (useTimer 5)) in
  remainingTime ended <= 0
  /\ start ended = mkTimer (remainingTime ended) false RefNull (S (onEndCalls ended))
  /\ onEndCalls (start (start ended)) = 3%nat.
Proof.
  intros ended.
  assert (H : remainingTime ended <= 0) by (vm_compute; discriminate).
  split; [exact H|]. split; [exact (start_without_time_calls_onEnd ended H)|].
  reflexivity.
Defined.

(** [togglePause] on a timer with time left switches between running and
    paused and touches neither the remaining time nor [onEnd]; two calls
    bring a running timer back to the state it was in. *)
Theorem togglePause_switches (st : TimerState) :
  0 < remainingTime st ->
  let st' := ExamView.togglePause st in
  isRunning st' = negb (isRunning st)
  /\ remainingTime st' = remainingTime st
  /\ onEndCalls st' = onEndCalls st
  /\ (isRunning st = true -> timerRef st = RefLive ->
      ExamView.togglePause st' = st).
Proof.
  intros Hr. destruct st as [r run ref n]. simpl in Hr.
  assert (E1 : (0 <? r) = true) by lia.
  unfold ExamView.togglePause, start, pause, commit, cleanup, effect. simpl.
  destruct run; simpl.
  - destruct ref; simpl; rewrite ?andb_false_r; simpl;
      repeat split; try done; intros _ [=].
    rewrite E1. reflexivity.
  - destruct ref; simpl; rewrite E1; simpl; repeat split; done.
Qed.

Lemma togglePause_switches_witness :
  let st := ticks 2 (start (useTimer 5)) in
  0 < remainingTime st
  /\ isRunning (ExamView.togglePause st) = negb (isRunning st)
  /\ remainingTime (ExamView.togglePause st) = remainingTime st
  /\ onEndCalls (ExamView.togglePause st) = onEndCalls st
  /\ (isRunning st = true -> timerRef st = RefLive ->
      ExamView.togglePause (ExamView.togglePause st) = st).
Proof.
  intros st. split; [vm_compute; reflexivity|].
  apply (togglePause_switches st). vm_compute. reflexivity.
Defined.

(** X15. The countdown in general, on the hook with its intervals. A timer
    started with [d >= 1] seconds shows [d - k] after [k] seconds, and 0
    from the [d]-th second on; it runs, with exactly one live interval,
    until then; [onEnd] is called once, at the [d]-th second, and from
    then on the timer is paused and no interval is left. *)
Theorem countdown_from_any_duration (d : Z) (k : nat) :
  1 <= d ->
  let st := Hook.ticks k (Hook.start (Hook.useTimer d)) in
  Hook.remainingTime st = Z.max (d - Z.of_nat k) 0
  /\ Hook.isRunning st = (Z.of_nat k <? d)
  /\ Hook.onEndCalls st = (if Z.of_nat k <? d then 0%nat else 1%nat)
  /\ length (Hook.intervals st) = (if Z.of_nat k <? d then 1%nat else 0%nat).
Proof.
  intros Hd st.
  destruct (hook_start_shape d ltac:(lia)) as [Hs0 Ha0].
  destruct (hook_ticks_refines k _ Hs0) as [H1 H2]. fold st in H1, H2.
  rewrite Ha0 in H2.
  replace d with (Z.of_nat (Z.to_nat d)) in H2 at 1 by lia.
  rewrite (ticks_countdown (Z.to_nat d) 0 k) in H2 by lia.
  destruct (k <? Z.to_nat d)%nat eqn:E.
  - apply Nat.ltb_lt in E.
    assert (E' : (Z.of_nat k <? d) = true) by lia. rewrite E'.
    destruct (hook_read_back _ _ _ _ _ H1 H2) as (Hr & Hrun & Hn & Hlive & _).
    repeat split; try done; [lia|by apply Hlive].
  - apply Nat.ltb_ge in E.
    assert (E' : (Z.of_nat k <? d) = false) by lia. rewrite E'.
    destruct (hook_read_back _ _ _ _ _ H1 H2) as (Hr & Hrun & Hn & _ & Hnull).
    destruct (Hnull eq_refl) as [Hi _]. repeat split; try done; [lia|by rewrite Hi].
Qed.

Lemma countdown_from_any_duration_witness :
  1 <= 10800
  /\ Hook.remainingTime (Hook.ticks 90 (Hook.start (Hook.useTimer 10800)))
     = Z.max (10800 - Z.of_nat 90) 0
  /\ Hook.isRunning (Hook.ticks 90 (Hook.start (Hook.useTimer 10800)))
     = (Z.of_nat 90 <? 10800)
  /\ Hook.onEndCalls (Hook.ticks 90 (Hook.start (Hook.useTimer 10800)))
     = (if Z.of_nat 90 <? 10800 then 0%nat else 1%nat)
  /\ length (Hook.intervals (Hook.ticks 90 (Hook.start (Hook.useTimer 10800))))
     = (if Z.of_nat 90 <? 10800 then 1%nat else 0%nat).
Proof.
  split; [lia|]. apply (countdown_from_any_duration 10800 90). lia.
Defined.

(** X16. A pause costs no time: pausing a running timer, waiting any number of
    seconds and resuming continues the countdown where it stopped. *)
Theorem pause_and_resume_cost_no_time (d : Z) (j waited k : nat) :
  Z.of_nat j < d ->
  ticks k (start (ticks waited (pause (ticks j (start (useTimer d))))))
  = ticks (j + k) (start (useTimer d)).
Proof.
  intros Hj.
  assert (Hs : start (useTimer d) = mkTimer d true RefLive 0).
  { unfold start, useTimer. simpl. apply commit_running. lia. }
  rewrite ticks_add, Hs, ticks_running by lia.
  set (r := d - Z.of_nat j).
  assert (Hp : pause (mkTimer r true RefLive 0%nat) = mkTimer r false RefCleared 0%nat).
  { unfold pause, commit, cleanup, effect. simpl. by rewrite andb_false_r. }
  rewrite Hp. rewrite (ticks_stopped waited) by (simpl; discriminate).
  unfold start. simpl. rewrite commit_running by (unfold r; lia). done.
Qed.

Lemma pause_and_resume_cost_no_time_witness :
  Z.of_nat 2 < 5
  /\ ticks 3 (start (ticks 40 (pause (ticks 2 (start (useTimer 5))))))
     = ticks (2 + 3) (start (useTimer 5)).
Proof.
  split; [lia|]. apply (pause_and_resume_cost_no_time 5 2 40 3). lia.
Defined.

End TimerControls.

(** ** Finding a question by its qid *)

Section FindIndex.

Lemma findIndex_spec (k : Z) (qs : list Question) (i : Z) :
  0 <= i ->
  let r := findIndex (Some k) qs i in
  (r = -1 /\ forall q, q ∈ qs -> qid q <> k)
  \/ (i <= r < i + Z.of_nat (length qs)
      /\ exists q, qs !! Z.to_nat (r - i) = Some q /\ qid q = k
         /\ forall (j : nat) q', (j < Z.to_nat (r - i))%nat ->
              qs !! j = Some q' -> qid q' <> k).
Proof.
  revert i. induction qs as [|x qs IH]; intros i Hi; simpl.
  - left. split; [done|]. intros q Hq. by inversion Hq.
  - case_bool_decide as Hx.
    + right. split; [lia|]. exists x. rewrite Z.sub_diag. simpl.
      split; [done|]. split; [congruence|]. intros j q' Hj. lia.
    + destruct (IH (i + 1) ltac:(lia)) as [[Hr Hno]|(Hr & q & Hq & Hk & Hfirst)].
      * left. split; [done|]. intros q [->|Hq]%elem_of_cons; [congruence|by apply Hno].
      * right. split; [lia|]. exists q.
        replace (Z.to_nat (findIndex (Some k) qs (i + 1) - i))
          with (S (Z.to_nat (findIndex (Some k) qs (i + 1) - (i + 1)))) by lia.
        simpl. split; [done|]. split; [done|].
        intros [|j] q' Hj Hl; simpl in Hl.
        -- injection Hl as <-. congruence.
        -- apply (Hfirst j q'); [lia|done].
Qed.

(** [findIndex] from 0 on a qid that occurs in the list gives a valid index,
    and the question there has that qid. *)
Lemma findIndex_found (qs : list Question) (q : Question) :
  q ∈ qs ->
  exists q', ExamView.questionAt qs (findIndex (Some (qid q)) qs 0) = Some q'
             /\ qid q' = qid q
             /\ 0 <= findIndex (Some (qid q)) qs 0 < Z.of_nat (length qs).
Proof.
  intros Hin.
  destruct (findIndex_spec (qid q) qs 0 ltac:(lia)) as [[_ Hno]|(Hr & q' & Hq' & Hk & _)].
  - by destruct (Hno q Hin).
  - exists q'. unfold ExamView.questionAt.
    destruct (findIndex (Some (qid q)) qs 0 <? 0) eqn:E; [apply Z.ltb_lt in E; lia|].
    rewrite Z.sub_0_r in Hq'. split; [done|]. split; [done|lia].
Qed.

(** With distinct qids the index found for a question is the place of that
    very question. *)
Lemma findIndex_nodup (qs : list Question) (i : nat) (q : Question) :
  NoDup (qid <$> qs) -> qs !! i = Some q ->
  findIndex (Some (qid q)) qs 0 = Z.of_nat i.
Proof.
  intros Hnd Hi.
  destruct (findIndex_spec (qid q) qs 0 ltac:(lia)) as [[_ Hno]|(Hr & q' & Hq' & Hk & _)].
  - destruct (Hno q); [|done]. by eapply list_elem_of_lookup_2.
  - rewrite Z.sub_0_r in Hq'.
    assert (Z.to_nat (findIndex (Some (qid q)) qs 0) = i); [|lia].
    eapply (NoDup_lookup (qid <$> qs)); [done| |].
    + rewrite list_lookup_fmap, Hq'. simpl. by rewrite Hk.
    + by rewrite list_lookup_fmap, Hi.
Qed.

(** X17. The palette never selects a missing question: for every question of
    the set, the index [QuestionNavigator] passes to [onSelect] is a valid
    index whose question has the qid of the button, and
    [handleQuestionSelect] does not throw on it. With distinct qids it is
    the place of the question itself. *)
Theorem palette_index_is_valid (qs : list Question) (cur : Z) (a : Attempt)
    (q : Question) :
  q ∈ qs ->
  let i := ExamView.originalIndex qs q in
  0 <= i < Z.of_nat (length qs)
  /\ (exists q', ExamView.questionAt qs i = Some q' /\ qid q' = qid q)
  /\ (exists a', ExamView.handleQuestionSelect qs cur a i = ExamView.Selected a' i)
  /\ (NoDup (qid <$> qs) -> ExamView.questionAt qs i = Some q).
Proof.
  intros Hin i. destruct (findIndex_found qs q Hin) as (q' & Hq' & Hk & Hr).
  fold (ExamView.originalIndex qs q) in Hq', Hr. fold i in Hq', Hr.
  split; [done|]. split; [by exists q'|]. split.
  - unfold ExamView.handleQuestionSelect. rewrite Hq'. by eexists.
  - intros Hnd. apply list_elem_of_lookup_1 in Hin as [j Hj].
    unfold i, ExamView.originalIndex. rewrite (findIndex_nodup qs j q Hnd Hj).
    unfold ExamView.questionAt.
    destruct (Z.of_nat j <? 0) eqn:E; [apply Z.ltb_lt in E; lia|].
    by rewrite Nat2Z.id.
Qed.

Lemma palette_index_is_valid_witness :
  let q1 := question 1 MCQ (Some "B"%string) in
  let q2 := question 2 TITA (Some "42"%string) in
  let a := attemptOf ∅ {[ 1 := NotAnswered; 2 := NotVisited ]} in
  q2 ∈ [q1; q2]
  /\ 0 <= ExamView.originalIndex [q1; q2] q2 < Z.of_nat (length [q1; q2])
  /\ (exists q', ExamView.questionAt [q1; q2] (ExamView.originalIndex [q1; q2] q2) = Some q'
                 /\ qid q' = qid q2)
  /\ (exists a', ExamView.handleQuestionSelect [q1; q2] 0 a
                   (ExamView.originalIndex [q1; q2] q2)
                 = ExamView.Selected a' (ExamView.originalIndex [q1; q2] q2))
  /\ (NoDup (qid <$> [q1; q2]) ->
      ExamView.questionAt [q1; q2] (ExamView.originalIndex [q1; q2] q2) = Some q2).
Proof.
  intros q1 q2 a.
  assert (Hin : q2 ∈ [q1; q2]) by (right; left).
  split; [exact Hin|].
  exact (palette_index_is_valid [q1; q2] 0 a q2 Hin).
Defined.

End FindIndex.

(** ** The status of a question under the handlers *)

Section StatusRuns.

Import Events.


(** Answering a question and then clearing the response leaves it
    [NotAnswered], or [MarkedForReview] when it carried the review mark;
    the stored answer is the empty string. *)
Theorem answer_then_clear (cq : Question) (v : string) (a : Attempt) :
  exists a' : Attempt,
    clearResponse (Some cq) (handleAnswerChange (qid cq) v (Some a)) = Some a'
    /\ answers a' !! qid cq = Some EmptyString
    /\ statuses a' !! qid cq
       = Some (if Table.isMarked (statuses a !! qid cq)
               then MarkedForReview else NotAnswered).
Proof.
  eexists. split; [reflexivity|]. simpl. rewrite !lookup_insert_eq.
  split; [done|].
  destruct (truthy v), (statuses a !! qid cq) as [[]|]; reflexivity.
Qed.

(** X19. [handleMarkForReview] switches the review mark of the question on
    display and touches nothing else: not the answers, not another
    question. *)
Theorem handleMarkForReview_flips_mark (cq : Question) (a : Attempt) :
  exists a' : Attempt,
    handleMarkForReview (Some cq) a = Some a'
    /\ Table.isMarked (statuses a' !! qid cq)
       = negb (Table.isMarked (statuses a !! qid cq))
    /\ answers a' = answers a
    /\ (forall k, k <> qid cq -> statuses a' !! k = statuses a !! k).
Proof.
  eexists. split; [reflexivity|]. simpl. rewrite lookup_insert_eq.
  split; [|split].
  - destruct (statuses a !! qid cq) as [[]|], (hasAnswer (answers a !! qid cq));
      reflexivity.
  - done.
  - intros k Hk. by rewrite lookup_insert_ne.
Qed.

(** X20. Selecting a question that exists: the question becomes [NotAnswered] if
    it was [NotVisited] and keeps its status otherwise, the answers are
    untouched, and selecting it again changes nothing. *)
Theorem handleQuestionSelect_visits (qs : list Question) (cur : Z) (a : Attempt)
    (index : Z) (nq : Question) :
  ExamView.questionAt qs index = Some nq ->
  exists a' : Attempt,
    ExamView.handleQuestionSelect qs cur a index = ExamView.Selected (Some a') index
    /\ answers a' = answers a
    /\ statuses a' !! qid nq
       = (if bool_decide (statuses a !! qid nq = Some NotVisited)
          then Some NotAnswered else statuses a !! qid nq)
    /\ ExamView.handleQuestionSelect qs index a' index
       = ExamView.Selected (Some a') index.
Proof.
  intros Hq. unfold ExamView.handleQuestionSelect. rewrite Hq.
  destruct (ExamView.questionAt qs cur) as [cq|];
    [destruct (bool_decide (statuses a !! qid cq = Some NotVisited)) eqn:Ec|];
    destruct (bool_decide (statuses a !! qid nq = Some NotVisited)) eqn:En;
    simpl; eexists; (split; [reflexivity|]); simpl;
    (split; [reflexivity|]);
    rewrite ?lookup_insert_eq;
    try (apply bool_decide_eq_true in Ec);
    try (apply bool_decide_eq_false in Ec);
    try (apply bool_decide_eq_true in En);
    try (apply bool_decide_eq_false in En).
  all: try (destruct (decide (qid cq = qid nq)) as [He|Hne];
            [rewrite <- ?He in *; rewrite ?lookup_insert_eq
            |rewrite ?lookup_insert_ne by done]).
  all: try congruence.
  all: split; [first [reflexivity | congruence]|].
  all: rewrite ?bool_decide_eq_false_2; try reflexivity; try congruence.
  all: rewrite ?lookup_insert_eq; try congruence.
  all: try (rewrite lookup_insert_ne by congruence; congruence).
Qed.

Lemma handleQuestionSelect_visits_witness :
  let q1 := question 1 MCQ (Some "B"%string) in
  let q2 := question 2 TITA (Some "42"%string) in
  let a := attemptOf ∅ {[ 1 := NotAnswered; 2 := NotVisited ]} in
  ExamView.questionAt [q1; q2] 1 = Some q2
  /\ exists a' : Attempt,
      ExamView.handleQuestionSelect [q1; q2] 0 a 1 = ExamView.Selected (Some a') 1
      /\ answers a' = answers a
      /\ statuses a' !! qid q2
         = (if bool_decide (statuses a !! qid q2 = Some NotVisited)
            then Some NotAnswered else statuses a !! qid q2)
      /\ ExamView.handleQuestionSelect [q1; q2] 1 a' 1
         = ExamView.Selected (Some a') 1.
Proof.
  intros q1 q2 a. split; [reflexivity|].
  apply (handleQuestionSelect_visits [q1; q2] 0 a 1 q2). reflexivity.
Defined.

(** What a visit does to the statuses: [NotVisited] becomes [NotAnswered]
    at the qid, everything else stays. *)
Lemma updateStatus_visit_lookup (id k : Z) (a : Attempt) :
  statuses a !! id = Some NotVisited ->
  forall a', updateStatus id NotAnswered (Some a) = Some a' ->
  answers a' = answers a
  /\ statuses a' !! k = if decide (k = id) then Some NotAnswered else statuses a !! k.
Proof.
  intros Hs a' [= <-]. simpl. split; [done|].
  case_decide as Hk; [subst; by rewrite lookup_insert_eq|by rewrite lookup_insert_ne].
Qed.

(** One event, seen from one qid: the answers and the status after it. *)
Lemma examStep_lookup (a : Attempt) (e : ExamEvent) (k : Z) :
  let a' := examStep a e in
  (answers a' !! k = answers a !! k /\ statuses a' !! k = statuses a !! k)
  \/ (answers a' !! k = answers a !! k
      /\ statuses a !! k = Some NotVisited /\ statuses a' !! k = Some NotAnswered)
  \/ (answers a' !! k = answers a !! k
      /\ statuses a' !! k
         = Some (match statuses a !! k with
                 | Some s => Table.toggleMark s (hasAnswer (answers a !! k))
                 | None => Table.toggleMark NotAnswered (hasAnswer (answers a !! k))
                 end))
  \/ (exists v, answers a' !! k = Some v
      /\ statuses a' !! k
         = Some (if truthy v
                 then (if Table.isMarked (statuses a !! k)
                       then AnsweredAndMarked else Answered)
                 else (if Table.isMarked (statuses a !! k)
                       then MarkedForReview else NotAnswered))).
Proof.
  assert (Hans : forall id v,
    let a' := default a (handleAnswerChange id v (Some a)) in
    (answers a' !! k = answers a !! k /\ statuses a' !! k = statuses a !! k)
    \/ (exists v, answers a' !! k = Some v
        /\ statuses a' !! k
           = Some (if truthy v
                   then (if Table.isMarked (statuses a !! k)
                         then AnsweredAndMarked else Answered)
                   else (if Table.isMarked (statuses a !! k)
                         then MarkedForReview else NotAnswered)))).
  { intros id v. simpl. destruct (decide (k = id)) as [->|Hk].
    - right. exists v. rewrite !lookup_insert_eq. split; [done|].
      destruct (truthy v), (statuses a !! id) as [[]|]; reflexivity.
    - left. by rewrite !lookup_insert_ne. }
  destruct e as [id v|[cq|]|[cq|]|qs i j]; simpl.
  - destruct (Hans id v) as [H|H]; [by left|by do 3 right].
  - destruct (Hans (qid cq) EmptyString) as [H|H]; [by left|by do 3 right].
  - by left.
  - destruct (decide (k = qid cq)) as [->|Hk].
    + right; right; left. rewrite lookup_insert_eq. split; [done|].
      destruct (statuses a !! qid cq) as [[]|],
        (hasAnswer (answers a !! qid cq)); reflexivity.
    + left. by rewrite lookup_insert_ne.
  - by left.
  - cbv zeta. unfold examStep, ExamView.handleQuestionSelect.
    assert (Hvisit : forall id (b : option Attempt),
      (b = Some a \/ exists id0, statuses a !! id0 = Some NotVisited
                      /\ b = updateStatus id0 NotAnswered (Some a)) ->
      let a' := default a (if bool_decide (statuses a !! id = Some NotVisited)
                           then updateStatus id NotAnswered b else b) in
      (answers a' !! k = answers a !! k /\ statuses a' !! k = statuses a !! k)
      \/ (answers a' !! k = answers a !! k
          /\ statuses a !! k = Some NotVisited /\ statuses a' !! k = Some NotAnswered)).
    { intros id b Hb. case_bool_decide as Hid.
      - destruct Hb as [->|(id0 & H0 & ->)]; simpl.
        + destruct (decide (k = id)) as [->|Hk].
          * right. by rewrite lookup_insert_eq.
          * left. by rewrite lookup_insert_ne.
        + destruct (decide (k = id)) as [->|Hk].
          * right. by rewrite lookup_insert_eq.
          * rewrite (lookup_insert_ne _ id k) by done.
            destruct (decide (k = id0)) as [->|Hk0].
            -- right. by rewrite lookup_insert_eq.
            -- left. by rewrite lookup_insert_ne.
      - destruct Hb as [->|(id0 & H0 & ->)]; simpl; [by left|].
        destruct (decide (k = id0)) as [->|Hk0].
        + right. by rewrite lookup_insert_eq.
        + left. by rewrite lookup_insert_ne. }
    assert (Hfirst : forall b : option Attempt,
      b = match ExamView.questionAt qs i with
          | Some cq => if bool_decide (statuses a !! qid cq = Some NotVisited)
                       then updateStatus (qid cq) NotAnswered (Some a) else Some a
          | None => Some a
          end ->
      b = Some a \/ exists id0, statuses a !! id0 = Some NotVisited
                     /\ b = updateStatus id0 NotAnswered (Some a)).
    { intros b ->. destruct (ExamView.questionAt qs i) as [cq|]; [|by left].
      case_bool_decide as Hc; [right; by exists (qid cq)|by left]. }
    specialize (Hfirst _ eq_refl).
    destruct (ExamView.questionAt qs j) as [nq|].
    + destruct (Hvisit (qid nq) _ Hfirst) as [H|H];
        [left; exact H|right; left; exact H].
    + destruct Hfirst as [->|(id0 & H0 & ->)]; simpl; [by left|].
      destruct (decide (k = id0)) as [->|Hk0].
      * right; left. by rewrite lookup_insert_eq.
      * left. by rewrite lookup_insert_ne.
Qed.

Lemma examStep_tracks (a : Attempt) (e : ExamEvent) :
  (forall k, saysAnswered (statuses a !! k) = hasAnswer (answers a !! k)) ->
  forall k, saysAnswered (statuses (examStep a e) !! k)
            = hasAnswer (answers (examStep a e) !! k).
Proof.
  intros Ha k. specialize (Ha k).
  destruct (examStep_lookup a e k)
    as [[-> ->]|[(-> & Hb & ->)|[(-> & ->)|(v & -> & ->)]]].
  - exact Ha.
  - by rewrite Hb in Ha.
  - destruct (statuses a !! k) as [[]|], (hasAnswer (answers a !! k)); done.
  - destruct (truthy v) eqn:Hv, (Table.isMarked (statuses a !! k)); simpl; by rewrite ?Hv.
Qed.

Lemma examStep_never_unvisits (a : Attempt) (e : ExamEvent) (k : Z) :
  (statuses (examStep a e) !! k = Some NotVisited -> statuses a !! k = Some NotVisited)
  /\ (is_Some (statuses a !! k) -> is_Some (statuses (examStep a e) !! k)).
Proof.
  destruct (examStep_lookup a e k)
    as [[_ ->]|[(_ & Hb & ->)|[(_ & ->)|(v & _ & ->)]]].
  - done.
  - split; [done|by eexists].
  - split; [|by eexists].
    destruct (statuses a !! k) as [[]|], (hasAnswer (answers a !! k)); done.
  - split; [|by eexists].
    destruct (truthy v), (Table.isMarked (statuses a !! k)); done.
Qed.

(** X21. From a fresh attempt on, whatever the candidate does (answer, clear,
    mark, move between questions), the status of every question says
    "answered" exactly when its stored answer is a non-empty string; so a
    question that [calculateScore] counts as answered is always shown as
    [Answered] or [AnsweredAndMarked]. *)
Theorem status_tracks_answer (now : Z) (localStorage : gmap string string)
    (qSet : QuestionSet) (sid : string) (st st' : AppState) (a0 : Attempt)
    (es : list ExamEvent) (k : Z) :
  startExam now localStorage qSet sid st = Returned st' ->
  view st' = exam ->
  attempt st' = Some (Built a0) ->
  let a := examRun es a0 in
  saysAnswered (statuses a !! k) = hasAnswer (answers a !! k)
  /\ (isAnswered (answers a !! k) = true -> saysAnswered (statuses a !! k) = true).
Proof.
  intros Hstart Hview Hatt a.
  assert (H0 : forall k, saysAnswered (statuses a0 !! k) = hasAnswer (answers a0 !! k)).
  { unfold startExam in Hstart.
    destruct (questions qSet) as [|first rest] eqn:Hq.
    { injection Hstart as <-. discriminate. }
    destruct (getItem localStorage ("attempt_" +:+ sid)) as [[|c raw]|].
    - injection Hstart as <-. injection Hatt as <-. intros k0. simpl.
      rewrite lookup_empty, lookup_initialStatuses.
      repeat case_decide; reflexivity.
    - destruct (JSON.parse (String c raw)) as [j|]; [|discriminate].
      injection Hstart as <-. simpl in Hatt. by destruct j.
    - injection Hstart as <-. injection Hatt as <-. intros k0. simpl.
      rewrite lookup_empty, lookup_initialStatuses.
      repeat case_decide; reflexivity. }
  assert (Hall : forall k, saysAnswered (statuses a !! k) = hasAnswer (answers a !! k)).
  { unfold a, examRun. clear Hstart Hview Hatt.
    induction es as [|e es' IH] using rev_ind; [exact H0|].
    rewrite fold_left_app. simpl. by apply examStep_tracks. }
  split; [apply Hall|]. rewrite Hall.
  destruct (answers a !! k) as [v|]; [|done]. simpl.
  by intros [? _]%andb_true_iff.
Qed.

Lemma status_tracks_answer_witness :
  let q1 := question 1 MCQ (Some "B"%string) in
  let q2 := question 2 TITA (Some "42"%string) in
  let qSet := examOf catMarking [q1; q2] in
  let a0 := mkAttempt "paper.pdf-1" "local_user" (mkTimerInfo 0 10800 10800)
              ∅ (initialStatuses q1 [q1; q2]) inProgress None in
  let st' := mkApp exam None None None (Some (Built a0)) 0 in
  let es := [AnswerChange 1 "B"; MarkForReview (Some q1);
             QuestionSelect [q1; q2] 0 1; AnswerChange 2 "7"; ClearResponse (Some q2)] in
  startExam 0 ∅ qSet "paper.pdf-1" initialState = Returned st'
  /\ view st' = exam
  /\ attempt st' = Some (Built a0)
  /\ saysAnswered (statuses (examRun es a0) !! 1) = hasAnswer (answers (examRun es a0) !! 1)
  /\ (isAnswered (answers (examRun es a0) !! 1) = true ->
      saysAnswered (statuses (examRun es a0) !! 1) = true).
Proof.
  intros q1 q2 qSet a0 st' es.
  assert (H1 : startExam 0 ∅ qSet "paper.pdf-1" initialState = Returned st')
    by reflexivity.
  split; [exact H1|]. split; [reflexivity|]. split; [reflexivity|].
  exact (status_tracks_answer 0 ∅ qSet "paper.pdf-1" initialState st' a0 es 1
           H1 eq_refl eq_refl).
Defined.

(** X22. No handler ever puts a question back to [NotVisited], and none removes
    a status: after any sequence of events a question is [NotVisited] only
    if it was before, and a question that had a status still has one. *)
Theorem never_back_to_NotVisited (a : Attempt) (es : list ExamEvent) (k : Z) :
  (statuses (examRun es a) !! k = Some NotVisited -> statuses a !! k = Some NotVisited)
  /\ (is_Some (statuses a !! k) -> is_Some (statuses (examRun es a) !! k)).
Proof.
  unfold examRun. induction es as [|e es' [IH1 IH2]] using rev_ind; [done|].
  rewrite fold_left_app. simpl.
  destruct (examStep_never_unvisits (fold_left examStep es' a) e k) as [H1 H2].
  split; [intros H; by apply IH1, H1|intros H; by apply H2, IH2].
Qed.

End StatusRuns.

(** ** Sections and navigation inside a section *)

Section Navigation.

Lemma setOrder_spec (l seen : list string) :
  NoDup (ExamView.setOrder seen l)
  /\ forall x, x ∈ ExamView.setOrder seen l <-> x ∈ l /\ x ∉ seen.
Proof.
  revert seen. induction l as [|y l IH]; intros seen; simpl.
  - split; [constructor|]. intros x. split; [by intros H; inversion H|].
    intros [H _]. by inversion H.
  - case_bool_decide as Hy.
    + destruct (IH seen) as [Hnd Hin]. split; [done|]. intros x. rewrite Hin.
      split; [intros [? ?]; split; [by right|done]|].
      intros [[->|?]%elem_of_cons ?]; done.
    + destruct (IH (y :: seen)) as [Hnd Hin]. split.
      * apply NoDup_cons. split; [|done]. rewrite Hin. intros [_ H]. apply H. left.
      * intros x. rewrite elem_of_cons, Hin, !elem_of_cons. split.
        -- intros [->|[? Hx]]; [split; [by left|done]|].
           split; [by right|]. intros ?. apply Hx. by right.
        -- intros [[->|?] Hx]; [by left|]. destruct (decide (x = y)) as [->|?]; [by left|].
           right. split; [done|]. intros [?|?]; done.
Qed.

Lemma elem_of_sectionNames (qs : list Question) (s : string) :
  s ∈ ExamView.sectionNames qs
  <-> s <> EmptyString /\ exists q, q ∈ qs /\ section q = Some s.
Proof.
  induction qs as [|q qs IH]; simpl.
  - split; [by intros H; inversion H|]. intros [_ (q & H & _)]. by inversion H.
  - destruct (section q) as [[|c t]|] eqn:Hs.
    + rewrite IH. split.
      * intros [? (q' & ? & ?)]. split; [done|]. exists q'. split; [by right|done].
      * intros [Hne (q' & [->|?]%elem_of_cons & Hq')]; [congruence|].
        split; [done|]. by exists q'.
    + rewrite elem_of_cons, IH. split.
      * intros [->|[? (q' & ? & ?)]].
        -- split; [done|]. exists q. split; [left|done].
        -- split; [done|]. exists q'. split; [by right|done].
      * intros [Hne (q' & [->|?]%elem_of_cons & Hq')].
        -- left. congruence.
        -- right. split; [done|]. by exists q'.
    + rewrite IH. split.
      * intros [? (q' & ? & ?)]. split; [done|]. exists q'. split; [by right|done].
      * intros [Hne (q' & [->|?]%elem_of_cons & Hq')]; [congruence|].
        split; [done|]. by exists q'.
Qed.

(** X23. The section buttons: 'All' first, then every non-empty section name
    that some question carries, each exactly once. *)
Theorem sections_lists_each_section_once (qs : list Question) :
  exists rest : list string,
    ExamView.sections qs = "All"%string :: rest
    /\ NoDup rest
    /\ forall s, s ∈ rest <-> s <> EmptyString /\ exists q, q ∈ qs /\ section q = Some s.
Proof.
  eexists. split; [reflexivity|].
  destruct (setOrder_spec (ExamView.sectionNames qs) []) as [Hnd Hin].
  split; [done|]. intros s. rewrite Hin, elem_of_sectionNames.
  split; [by intros [? _]|]. intros H. split; [done|]. by intros Hs; inversion Hs.
Qed.

Lemma elem_of_filteredQuestions (sec : string) (qs : list Question) (q : Question) :
  q ∈ ExamView.filteredQuestions sec qs -> q ∈ qs.
Proof.
  unfold ExamView.filteredQuestions. destruct (String.eqb sec "All"); [done|].
  rewrite !list_elem_of_In. intros H%filter_In. tauto.
Qed.



(** X25. The ends of the filter. [Previous] on the first question of the filter
    and [Next] on the last one do nothing. When the question on display is
    not in the filter (the section was changed), [Previous] does nothing
    and [Next] selects the first question of the filter. *)
Theorem navigation_at_the_ends (qs : list Question) (sec : string) (cur : Z)
    (cq : Question) (a : Attempt) :
  let filtered := ExamView.filteredQuestions sec qs in
  let p := findIndex (Some (qid cq)) filtered 0 in
  let go := ExamView.navigateWithinFilter qs sec cur cq a in
  (p = 0 -> go ExamView.prev = None)
  /\ (p = Z.of_nat (length filtered) - 1 -> go ExamView.next = None)
  /\ (p = -1 ->
      go ExamView.prev = None
      /\ go ExamView.next
         = match filtered with
           | [] => None
           | f0 :: _ =>
               Some (ExamView.handleQuestionSelect qs cur a
                       (findIndex (Some (qid f0)) qs 0))
           end).
Proof.
  intros filtered p go. unfold go, ExamView.navigateWithinFilter.
  fold filtered. fold p. split; [|split].
  - intros ->. reflexivity.
  - intros ->. replace (Z.of_nat (length filtered) - 1 + 1)
      with (Z.of_nat (length filtered)) by lia.
    by rewrite Z.ltb_irrefl, andb_false_r.
  - intros ->. split; [reflexivity|]. simpl.
    destruct filtered as [|f0 rest] eqn:Hf; [reflexivity|].
    simpl. unfold ExamView.questionAt. simpl.
    assert (Hin : f0 ∈ qs).
    { apply (elem_of_filteredQuestions sec). fold filtered. rewrite Hf. left. }
    destruct (findIndex_found qs f0 Hin) as (_ & _ & _ & Hr).
    destruct (findIndex (Some (qid f0)) qs 0 =? -1) eqn:E; [|done].
    apply Z.eqb_eq in E. lia.
Qed.

End Navigation.

(** ** Resuming at the saved question *)

Section Resume.

Lemma digit_cases (d : Z) :
  0 <= d < 10 ->
  d = 0 \/ d = 1 \/ d = 2 \/ d = 3 \/ d = 4 \/ d = 5 \/ d = 6 \/ d = 7 \/ d = 8 \/ d = 9.
Proof. lia. Qed.

Lemma digit_char (d : Z) :
  0 <= d < 10 ->
  let c := ascii_of_N (Z.to_N (48 + d)) in
  isDigit c = true /\ Z.of_N (code c) - 48 = d.
Proof.
  intros Hd.
  destruct (digit_cases d Hd) as [->|[->|[->|[->|[->|[->|[->|[->|[->| ->]]]]]]]]];
    split; reflexivity.
Qed.

(** With fuel for all the digits, [natDigits] writes in front of [acc] a
    non-empty run of digits whose value, read back, is [n]. *)
Lemma natDigits_spec (fuel : nat) (n : Z) (acc : string) :
  (0 < fuel)%nat -> 0 <= n < 2 ^ Z.of_nat fuel ->
  digits acc = (acc, EmptyString) ->
  digits (JSNumber.natDigits fuel n acc) = (JSNumber.natDigits fuel n acc, EmptyString)
  /\ (forall v, digitsValue v (JSNumber.natDigits fuel n acc)
                = digitsValue (v * 10 ^ Z.of_nat (String.length (JSNumber.natDigits fuel n acc)
                                                   - String.length acc) + n) acc)
  /\ (String.length acc < String.length (JSNumber.natDigits fuel n acc))%nat
  /\ exists d t, 0 <= d < 10
       /\ JSNumber.natDigits fuel n acc = String (ascii_of_N (Z.to_N (48 + d))) t.
Proof.
  revert n acc. induction fuel as [|fuel IH]; intros n acc Hf Hn Hacc; [lia|].
  simpl.
  assert (Hm : 0 <= n mod 10 < 10) by (apply Z.mod_pos_bound; lia).
  destruct (digit_char (n mod 10) Hm) as [Hdig Hval].
  set (c := ascii_of_N (Z.to_N (48 + n mod 10))) in *.
  assert (Hacc' : digits (String c acc) = (String c acc, EmptyString)).
  { simpl. by rewrite Hdig, Hacc. }
  destruct (n <? 10) eqn:E.
  - apply Z.ltb_lt in E. split; [done|]. split; [|split].
    + intros v. simpl. replace (S (String.length acc) - String.length acc)%nat with 1%nat by lia.
      rewrite Hval. rewrite Z.mod_small by lia. f_equal. lia.
    + simpl. lia.
    + exists (n mod 10), acc. done.
  - apply Z.ltb_ge in E.
    assert (Hf' : (0 < fuel)%nat).
    { destruct fuel; [|lia]. simpl in Hn. lia. }
    assert (Hn' : 0 <= n / 10 < 2 ^ Z.of_nat fuel).
    { split; [apply Z.div_pos; lia|].
      apply Z.div_lt_upper_bound; [lia|].
      rewrite Nat2Z.inj_succ, Z.pow_succ_r in Hn by lia. lia. }
    destruct (IH (n / 10) (String c acc) Hf' Hn' Hacc') as (H1 & H2 & H3 & H4).
    split; [done|]. split; [|split; [|done]].
    + intros v. rewrite H2. simpl in *. rewrite Hval.
      set (L := String.length (JSNumber.natDigits fuel (n / 10) (String c acc))) in *.
      replace (Z.of_nat (L - String.length acc))
        with (Z.succ (Z.of_nat (L - S (String.length acc)))) by lia.
      rewrite Z.pow_succ_r by lia. f_equal.
      pose proof (Z.div_mod n 10 ltac:(lia)). lia.
    + simpl in H3. lia.
Qed.

(** [parseInt] reads back what [toString] wrote. *)
Lemma parseInt_toString (z : Z) : parseInt (JSNumber.toString z) = Some z.
Proof.
  assert (Hnat : forall n, 0 <= n ->
    let s := JSNumber.natDigits (S (Z.to_nat (Z.log2 n))) n EmptyString in
    digits s = (s, EmptyString) /\ digitsValue 0 s = n
    /\ exists d t, 0 <= d < 10 /\ s = String (ascii_of_N (Z.to_N (48 + d))) t).
  { intros n Hn s.
    assert (Hb : 0 <= n < 2 ^ Z.of_nat (S (Z.to_nat (Z.log2 n)))).
    { split; [done|]. rewrite Nat2Z.inj_succ, Z2Nat.id by apply Z.log2_nonneg.
      destruct (decide (n = 0)) as [->|Hne]; [reflexivity|].
      apply Z.log2_spec. lia. }
    destruct (natDigits_spec (S (Z.to_nat (Z.log2 n))) n EmptyString
                ltac:(lia) Hb eq_refl) as (H1 & H2 & _ & H4).
    split; [done|]. split; [|done]. fold s in H2. rewrite H2. simpl. lia. }
  unfold JSNumber.toString, parseInt. destruct (z <? 0) eqn:E.
  - apply Z.ltb_lt in E. destruct (Hnat (- z) ltac:(lia)) as (H1 & H2 & d & t & Hd & Hs).
    remember (JSNumber.natDigits (S (Z.to_nat (Z.log2 (- z)))) (- z) EmptyString) as nd.
    clear Heqnd. cbn [trimStart]. change (isWhiteSpace "-") with false. cbv iota.
    rewrite H1, H2. rewrite Hs. f_equal. lia.
  - apply Z.ltb_ge in E. destruct (Hnat z E) as (H1 & H2 & d & t & Hd & Hs).
    remember (JSNumber.natDigits (S (Z.to_nat (Z.log2 z))) z EmptyString) as nd.
    clear Heqnd.
    assert (Ht : trimStart nd = nd /\
                 match nd with
                 | String "-" t => (true, t)
                 | String "+" t => (false, t)
                 | _ => (false, nd)
                 end = (false, nd)).
    { rewrite Hs.
      destruct (digit_cases d Hd) as [->|[->|[->|[->|[->|[->|[->|[->|[->| ->]]]]]]]]];
        split; reflexivity. }
    destruct Ht as [-> ->]. rewrite H1, H2. by rewrite Hs.
Qed.

Lemma toString_not_empty (z : Z) : JSNumber.toString z <> EmptyString.
Proof.
  intros H. pose proof (parseInt_toString z) as Hp. rewrite H in Hp. discriminate.
Qed.

Lemma startExam_resumes_at (now : Z)
    (localStorage : gmap string string) (qSet : QuestionSet) (sid : string)
    (st : AppState) (i : nat) (q : Question) (text : string) (j : json) :
  NoDup (qid <$> questions qSet) ->
  questions qSet !! i = Some q ->
  getItem localStorage ("attempt_" +:+ sid) = Some text ->
  JSON.parse text = Some j ->
  getItem localStorage ("last_qid_" +:+ sid) = Some (JSNumber.toString (qid q)) ->
  startExam now localStorage qSet sid st
  = Returned (mkApp exam (sessionId st) (processingError st) (questionSet st)
                (loadedAttempt j) (Z.of_nat i)).
Proof.
  intros Hnd Hi Htext Hparse Hlast. unfold startExam.
  destruct (questions qSet) as [|first rest] eqn:Hq; [by destruct i|].
  rewrite Htext. destruct text as [|c raw]; [done|]. rewrite Hparse, Hlast.
  destruct (JSNumber.toString (qid q)) as [|c' s'] eqn:Hts.
  { by destruct (toString_not_empty (qid q)). }
  rewrite <- Hts, parseInt_toString.
  rewrite (findIndex_nodup (first :: rest) i q Hnd Hi).
  destruct (0 <=? Z.of_nat i) eqn:E; [done|]. apply Z.leb_gt in E. lia.
Qed.

(** X26. A resumed attempt reopens on the question that was on display at the
    last autosave: with distinct qids, a saved blob that parses and the
    text of the qid of question [i] under the last-qid key, [startExam]
    stores the parsed blob as the attempt and sets the current index to
    [i]. *)
Theorem resume_returns_to_saved_question (now : Z)
    (localStorage : gmap string string) (qSet : QuestionSet) (sid : string)
    (st : AppState) (i : nat) (q : Question) (text : string) (j : json) :
  NoDup (qid <$> questions qSet) ->
  questions qSet !! i = Some q ->
  Z.abs (qid q) < 10 ^ 21 ->
  getItem localStorage ("attempt_" +:+ sid) = Some text ->
  JSON.parse text = Some j ->
  getItem localStorage ("last_qid_" +:+ sid) = Some (JSNumber.toString (qid q)) ->
  startExam now localStorage qSet sid st
  = Returned (mkApp exam (sessionId st) (processingError st) (questionSet st)
                (loadedAttempt j) (Z.of_nat i)).
Proof.
  intros Hnd Hi _ Htext Hparse Hlast.
  by apply (startExam_resumes_at now localStorage qSet sid st i q text j).
Qed.

Lemma resume_returns_to_saved_question_witness :
  let q1 := question 1 MCQ (Some "B"%string) in
  let q2 := question 12 TITA (Some "42"%string) in
  let qSet := examOf catMarking [q1; q2] in
  let localStorage : gmap string string :=
    {[ "attempt_paper.pdf-1"%string := "{}"%string;
       "last_qid_paper.pdf-1"%string := "12"%string ]} in
  NoDup (qid <$> questions qSet)
  /\ questions qSet !! 1%nat = Some q2
  /\ Z.abs (qid q2) < 10 ^ 21
  /\ getItem localStorage ("attempt_" +:+ "paper.pdf-1") = Some "{}"%string
  /\ JSON.parse "{}" = Some (JObject [])
  /\ getItem localStorage ("last_qid_" +:+ "paper.pdf-1")
     = Some (JSNumber.toString (qid q2))
  /\ startExam 0 localStorage qSet "paper.pdf-1" initialState
     = Returned (mkApp exam None None None (Some (Loaded (JObject []))) 1).
Proof.
  intros q1 q2 qSet localStorage.
  assert (Hnd : NoDup (qid <$> questions qSet)).
  { simpl. apply NoDup_cons. split; [|apply NoDup_singleton].
    intros H%list_elem_of_singleton. discriminate. }
  assert (Hi : questions qSet !! 1%nat = Some q2) by reflexivity.
  assert (Hb : Z.abs (qid q2) < 10 ^ 21) by (vm_compute; reflexivity).
  assert (Ht : getItem localStorage ("attempt_" +:+ "paper.pdf-1") = Some "{}"%string)
    by (vm_compute; reflexivity).
  assert (Hp : JSON.parse "{}" = Some (JObject [])) by (vm_compute; reflexivity).
  assert (Hl : getItem localStorage ("last_qid_" +:+ "paper.pdf-1")
               = Some (JSNumber.toString (qid q2))) by (vm_compute; reflexivity).
  split; [exact Hnd|]. split; [exact Hi|]. split; [exact Hb|]. split; [exact Ht|].
  split; [exact Hp|]. split; [exact Hl|].
  exact (resume_returns_to_saved_question 0 localStorage qSet "paper.pdf-1"
           initialState 1 q2 "{}" (JObject []) Hnd Hi Hb Ht Hp Hl).
Defined.

(** X27. A resumed attempt reopens on the first question when the last-qid
    key is missing or empty (the first qid then goes through its decimal
    text and [parseInt], for a qid below 10^21 in absolute value), and
    when the key holds a text that is not a number or the number of no
    question. *)
Theorem resume_falls_back_to_first_question (now : Z)
    (localStorage : gmap string string) (qSet : QuestionSet) (sid : string)
    (st : AppState) (text : string) (j : json) (first : Question)
    (rest : list Question) :
  questions qSet = first :: rest ->
  getItem localStorage ("attempt_" +:+ sid) = Some text ->
  JSON.parse text = Some j ->
  ((getItem localStorage ("last_qid_" +:+ sid) = None
    \/ getItem localStorage ("last_qid_" +:+ sid) = Some EmptyString)
   /\ Z.abs (qid first) < 10 ^ 21
   \/ exists s, getItem localStorage ("last_qid_" +:+ sid) = Some s
        /\ s <> EmptyString
        /\ (parseInt s = None
            \/ exists n, parseInt s = Some n
                 /\ forall q, q ∈ questions qSet -> qid q <> n)) ->
  startExam now localStorage qSet sid st
  = Returned (mkApp exam (sessionId st) (processingError st) (questionSet st)
                (loadedAttempt j) 0).
Proof.
  intros Hq Htext Hparse Hlast. unfold startExam. rewrite Hq in *.
  rewrite Htext. destruct text as [|c raw]; [done|]. rewrite Hparse.
  assert (Hfirst : findIndex (parseInt (JSNumber.toString (qid first)))
                     (first :: rest) 0 = 0).
  { rewrite parseInt_toString. cbn [findIndex]. by rewrite bool_decide_eq_true_2. }
  assert (Hnone : forall l i, findIndex None l i = -1).
  { induction l as [|x l IH]; intros i; cbn [findIndex]; [done|].
    rewrite bool_decide_eq_false_2 by done. apply IH. }
  destruct Hlast as [[[-> | ->] _]|(s & -> & Hne & [Hs|(n & Hs & Hno)])].
  - by rewrite Hfirst.
  - by rewrite Hfirst.
  - destruct s as [|c' s']; [done|]. by rewrite Hs, Hnone.
  - destruct s as [|c' s']; [done|]. rewrite Hs.
    destruct (findIndex_spec n (first :: rest) 0 ltac:(lia))
      as [[-> _]|(_ & q & Hl & Hk & _)]; [done|].
    destruct (Hno q); [|done]. by eapply list_elem_of_lookup_2.
Qed.

Lemma resume_falls_back_to_first_question_witness :
  let q1 := question 1 MCQ (Some "B"%string) in
  let q2 := question 2 TITA (Some "42"%string) in
  let qSet := examOf catMarking [q1; q2] in
  let stored : gmap string string :=
    {[ "attempt_paper.pdf-1"%string := "{}"%string;
       "last_qid_paper.pdf-1"%string := "seven"%string ]} in
  let missing : gmap string string :=
    {[ "attempt_paper.pdf-1"%string := "{}"%string ]} in
  questions qSet = q1 :: [q2]
  /\ getItem stored ("attempt_" +:+ "paper.pdf-1") = Some "{}"%string
  /\ getItem missing ("attempt_" +:+ "paper.pdf-1") = Some "{}"%string
  /\ JSON.parse "{}" = Some (JObject [])
  /\ getItem missing ("last_qid_" +:+ "paper.pdf-1") = None
  /\ Z.abs (qid q1) < 10 ^ 21
  /\ startExam 0 stored qSet "paper.pdf-1" initialState
     = Returned (mkApp exam None None None (Some (Loaded (JObject []))) 0)
  /\ startExam 0 missing qSet "paper.pdf-1" initialState
     = Returned (mkApp exam None None None (Some (Loaded (JObject []))) 0).
Proof.
  intros q1 q2 qSet stored missing.
  assert (Hq : questions qSet = q1 :: [q2]) by reflexivity.
  assert (Ht : getItem stored ("attempt_" +:+ "paper.pdf-1") = Some "{}"%string)
    by (vm_compute; reflexivity).
  assert (Ht' : getItem missing ("attempt_" +:+ "paper.pdf-1") = Some "{}"%string)
    by (vm_compute; reflexivity).
  assert (Hp : JSON.parse "{}" = Some (JObject [])) by (vm_compute; reflexivity).
  assert (Hm : getItem missing ("last_qid_" +:+ "paper.pdf-1") = None)
    by (vm_compute; reflexivity).
  assert (Hb : Z.abs (qid q1) < 10 ^ 21) by (vm_compute; reflexivity).
  split; [exact Hq|]. split; [exact Ht|]. split; [exact Ht'|]. split; [exact Hp|].
  split; [exact Hm|]. split; [exact Hb|]. split.
  - apply (resume_falls_back_to_first_question 0 stored qSet "paper.pdf-1"
             initialState "{}" (JObject []) q1 [q2] Hq Ht Hp).
    right. exists "seven"%string. split; [vm_compute; reflexivity|].
    split; [discriminate|]. left. vm_compute. reflexivity.
  - apply (resume_falls_back_to_first_question 0 missing qSet "paper.pdf-1"
             initialState "{}" (JObject []) q1 [q2] Hq Ht' Hp).
    left. split; [by left|exact Hb].
Defined.

End Resume.

(** ** Autosave and submission *)

Section Submission.

Variable JSON_stringify : Attempt -> string.

(** X28. Submitting computes the score from the attempt as it is, marks the
    attempt submitted, shows the results and removes both keys of the
    session from the storage, leaving the other keys alone; an autosave that
    fires afterwards writes nothing, and a later [startExam] with the same
    session id starts fresh instead of resuming. *)
Theorem submit_clears_the_saved_attempt (s : Session.State) (a : Attempt)
    (qSet : QuestionSet) (sid : string) :
  Session.attempt s = Some a ->
  Session.questionSet s = Some qSet ->
  Session.sessionId s = Some sid ->
  sid <> EmptyString ->
  let s' := Session.submitExam JSON_stringify s in
  Session.attempt s'
  = Some (mkAttempt (uploadId a) (userId a) (timer a) (answers a) (statuses a)
            submitted (Some (calculateScore a qSet)))
  /\ Session.view s' = results
  /\ Session.localStorage s' !! String.append "attempt_" sid = None
  /\ Session.localStorage s' !! String.append "last_qid_" sid = None
  /\ (forall key, key <> String.append "attempt_" sid ->
                  key <> String.append "last_qid_" sid ->
                  Session.localStorage s' !! key = Session.localStorage s !! key)
  /\ Session.autosaveTimeout JSON_stringify s' = s'
  /\ (forall now qSet' first rest st,
        questions qSet' = first :: rest ->
        exists fresh,
          startExam now (Session.localStorage s') qSet' sid st
          = Returned (mkApp exam (sessionId st) (processingError st)
                        (questionSet st) (Some (Built fresh)) 0)
          /\ answers fresh = ∅ /\ status fresh = inProgress).
Proof.
  intros Ha Hq Hsid Hne s'. destruct sid as [|c sid']; [done|].
  assert (Hs' : s' = Session.mkState results (Session.sessionId s) (Session.questionSet s)
            (Some (mkAttempt (uploadId a) (userId a) (timer a) (answers a) (statuses a)
                     submitted (Some (calculateScore a qSet))))
            (Session.currentQuestionIndex s)
            (delete (String.append "last_qid_" (String c sid'))
               (delete (String.append "attempt_" (String c sid'))
                  (Session.localStorage (Session.autosaveAttempt JSON_stringify s))))).
  { unfold s', Session.submitExam. by rewrite Ha, Hq, Hsid. }
  assert (Hgone1 : Session.localStorage s' !! String.append "attempt_" (String c sid') = None).
  { rewrite Hs'. cbn [Session.localStorage].
    rewrite lookup_delete_ne by discriminate. apply lookup_delete_eq. }
  assert (Hgone2 : Session.localStorage s' !! String.append "last_qid_" (String c sid') = None).
  { rewrite Hs'. cbn [Session.localStorage]. apply lookup_delete_eq. }
  split; [by rewrite Hs'|]. split; [by rewrite Hs'|].
  split; [exact Hgone1|]. split; [exact Hgone2|]. split; [|split].
  - intros key H1 H2. rewrite Hs'. cbn [Session.localStorage].
    rewrite !lookup_delete_ne by done.
    unfold Session.autosaveAttempt. rewrite Ha, Hsid, Hq.
    destruct (ExamView.questionAt (questions qSet) (Session.currentQuestionIndex s));
      cbn [Session.localStorage]; rewrite ?lookup_insert_ne by done; done.
  - rewrite Hs'. reflexivity.
  - intros now qSet' first rest st Hq'. eexists. split.
    + apply (startExam_fresh now _ qSet' (String c sid') st first rest Hq').
      left. exact Hgone1.
    + done.
Qed.

End Submission.

Lemma submit_clears_the_saved_attempt_witness :
  let q1 := question 1 MCQ (Some "B"%string) in
  let qSet := examOf catMarking [q1] in
  let a := attemptOf {[ 1 := "B"%string ]} {[ 1 := Answered ]} in
  let s := Session.mkState exam (Some "paper.pdf-1"%string) (Some qSet) (Some a) 0
             {[ "attempt_paper.pdf-1"%string := "{}"%string;
                "theme"%string := "dark"%string ]} in
  let s' := Session.submitExam (fun _ => "{}"%string) s in
  Session.attempt s = Some a
  /\ Session.questionSet s = Some qSet
  /\ Session.sessionId s = Some "paper.pdf-1"%string
  /\ "paper.pdf-1"%string <> EmptyString
  /\ Session.attempt s'
     = Some (mkAttempt (uploadId a) (userId a) (timer a) (answers a) (statuses a)
               submitted (Some (calculateScore a qSet)))
  /\ Session.view s' = results
  /\ Session.localStorage s' !! String.append "attempt_" "paper.pdf-1" = None
  /\ Session.localStorage s' !! String.append "last_qid_" "paper.pdf-1" = None.
Proof.
  intros q1 qSet a s s'.
  split; [reflexivity|]. split; [reflexivity|]. split; [reflexivity|].
  split; [discriminate|].
  pose proof (submit_clears_the_saved_attempt (fun _ => "{}"%string) s a qSet
                "paper.pdf-1" eq_refl eq_refl eq_refl ltac:(discriminate)) as H.
  destruct H as (H1 & H2 & H3 & H4 & _).
  repeat split; assumption.
Defined.

Section Autosave.

Variable JSON_stringify : Attempt -> string.

(** X29. Submitting again changes nothing: the second call computes the same
    score from the same answers and leaves the same state and storage. *)
Theorem submit_twice_is_submit_once (s : Session.State) :
  Session.submitExam JSON_stringify (Session.submitExam JSON_stringify s)
  = Session.submitExam JSON_stringify s.
Proof.
  unfold Session.submitExam at 2 3.
  destruct (Session.attempt s) as [a|] eqn:Ha; [|by unfold Session.submitExam; rewrite Ha].
  destruct (Session.questionSet s) as [qSet|] eqn:Hq;
    [|by unfold Session.submitExam; rewrite Ha, Hq].
  unfold Session.submitExam. cbn [Session.attempt Session.questionSet Session.sessionId
    Session.currentQuestionIndex]. f_equal.
  destruct (Session.sessionId s) as [[|c sid]|] eqn:Hsid.
  - unfold Session.autosaveAttempt.
    cbn [Session.attempt Session.sessionId Session.localStorage]. by rewrite Ha, Hsid.
  - apply map_eq. intros key.
    destruct (decide (key = String.append "last_qid_" (String c sid))) as [->|Hl].
    { by rewrite !lookup_delete_eq. }
    rewrite !(lookup_delete_ne _ (String.append "last_qid_" (String c sid))) by done.
    destruct (decide (key = String.append "attempt_" (String c sid))) as [->|Hk].
    { by rewrite !lookup_delete_eq. }
    rewrite !(lookup_delete_ne _ (String.append "attempt_" (String c sid))) by done.
    unfold Session.autosaveAttempt at 1.
    cbn [Session.attempt Session.sessionId Session.questionSet
         Session.currentQuestionIndex Session.localStorage].
    destruct (ExamView.questionAt (questions qSet) (Session.currentQuestionIndex s));
      rewrite ?lookup_insert_ne by done;
      rewrite !lookup_delete_ne by done; done.
  - unfold Session.autosaveAttempt.
    cbn [Session.attempt Session.sessionId Session.localStorage]. by rewrite Ha, Hsid.
Qed.

(** X30. Autosave and resume fit together: after an autosave of a session whose
    question set has distinct qids, [startExam] with the same session id
    takes the saved blob as the attempt (given that the text written by
    [JSON.stringify] parses) and reopens on the question that was on
    display. *)
Theorem autosave_then_resume (s : Session.State) (a : Attempt) (sid : string)
    (qSet : QuestionSet) (q : Question) (j : json) (now : Z) (st : AppState) :
  Session.attempt s = Some a ->
  Session.sessionId s = Some sid ->
  sid <> EmptyString ->
  Session.questionSet s = Some qSet ->
  NoDup (qid <$> questions qSet) ->
  ExamView.questionAt (questions qSet) (Session.currentQuestionIndex s) = Some q ->
  Z.abs (qid q) < 10 ^ 21 ->
  JSON.parse (JSON_stringify a) = Some j ->
  startExam now (Session.localStorage (Session.autosaveAttempt JSON_stringify s))
    qSet sid st
  = Returned (mkApp exam (sessionId st) (processingError st) (questionSet st)
                (loadedAttempt j) (Session.currentQuestionIndex s)).
Proof.
  intros Ha Hsid Hne Hq Hnd Hcur _ Hparse.
  destruct sid as [|c sid']; [done|].
  unfold ExamView.questionAt in Hcur.
  destruct (Session.currentQuestionIndex s <? 0) eqn:E; [done|].
  apply Z.ltb_ge in E.
  rewrite <- (Z2Nat.id (Session.currentQuestionIndex s)) by done.
  apply (startExam_resumes_at now _ qSet (String c sid') st _ q (JSON_stringify a) j);
    try done.
  - unfold Session.autosaveAttempt, getItem. rewrite Ha, Hsid, Hq.
    unfold ExamView.questionAt.
    assert (E' : (Session.currentQuestionIndex s <? 0) = false) by lia.
    rewrite E', Hcur. cbn [Session.localStorage].
    rewrite lookup_insert_ne by discriminate. apply lookup_insert_eq.
  - unfold Session.autosaveAttempt, getItem. rewrite Ha, Hsid, Hq.
    unfold ExamView.questionAt.
    assert (E' : (Session.currentQuestionIndex s <? 0) = false) by lia.
    rewrite E', Hcur. cbn [Session.localStorage]. apply lookup_insert_eq.
Qed.

End Autosave.

Lemma autosave_then_resume_witness :
  let q1 := question 1 MCQ (Some "B"%string) in
  let q2 := question 2 TITA (Some "42"%string) in
  let qSet := examOf catMarking [q1; q2] in
  let a := attemptOf {[ 1 := "B"%string ]} {[ 1 := Answered; 2 := NotAnswered ]} in
  let s := Session.mkState exam (Some "paper.pdf-1"%string) (Some qSet) (Some a) 1 ∅ in
  let stringify := fun _ : Attempt => "{}"%string in
  Session.attempt s = Some a
  /\ Session.sessionId s = Some "paper.pdf-1"%string
  /\ "paper.pdf-1"%string <> EmptyString
  /\ Session.questionSet s = Some qSet
  /\ NoDup (qid <$> questions qSet)
  /\ ExamView.questionAt (questions qSet) (Session.currentQuestionIndex s) = Some q2
  /\ Z.abs (qid q2) < 10 ^ 21
  /\ JSON.parse (stringify a) = Some (JObject [])
  /\ startExam 0 (Session.localStorage (Session.autosaveAttempt stringify s))
       qSet "paper.pdf-1" initialState
     = Returned (mkApp exam None None None (Some (Loaded (JObject []))) 1).
Proof.
  intros q1 q2 qSet a s stringify.
  assert (Hnd : NoDup (qid <$> questions qSet)).
  { simpl. apply NoDup_cons. split; [|apply NoDup_singleton].
    intros H%list_elem_of_singleton. discriminate. }
  assert (Hne : "paper.pdf-1"%string <> EmptyString) by discriminate.
  assert (Hb : Z.abs (qid q2) < 10 ^ 21) by (vm_compute; reflexivity).
  assert (Hp : JSON.parse (stringify a) = Some (JObject [])) by (vm_compute; reflexivity).
  split; [reflexivity|]. split; [reflexivity|]. split; [exact Hne|].
  split; [reflexivity|]. split; [exact Hnd|]. split; [reflexivity|].
  split; [exact Hb|]. split; [exact Hp|].
  exact (autosave_then_resume stringify s a "paper.pdf-1" qSet q2 (JObject []) 0
           initialState eq_refl eq_refl Hne eq_refl Hnd eq_refl Hb Hp).
Defined.
